(** * GSimulator: the command helper (src/GSimulator/command_helper.py)

    A shallow embedding of [read_setup] and [plotter] and the properties of
    the evaluation loop, the saturation lookup and the figures they produce.

    Numbers are IEEE binary64 values (Python's [float], numpy's [float64]),
    taken from the kernel's primitive floats; Python integers are [Z].
    [channels] is an [int], as the docstring says, and [offset] is a float.
    The calls the routine makes on matplotlib, on the PrettyTable and on
    [print] are recorded, in order, in a log of events, and are taken to
    return; an exception of the interpreter or of numpy ends the run and
    keeps the log written so far.  Memory is not bounded.  The class
    [Model] of GSimulator/model.py is a parameter. *)

From Stdlib Require Import ZArith String Bool Lia Floats List.
Import ListNotations.

Set Warnings "-inexact-float".

Local Open Scope float_scope.

(** ** Python values, exceptions and results *)

Module Py.

(** The exceptions a run of this module can end with.  The first four are
    raised by the interpreter and by numpy while an expression is
    evaluated; [Exception msg] stands for an exception raised by a [raise]
    statement of the module with the message [msg]. *)
Inductive exn : Type :=
| IndexError
| UnboundLocalError (name : string)
| ValueError
| OverflowError
| Exception (msg : string).

Inductive result (A : Type) : Type :=
| Return (a : A)
| Raise (e : exn).
Arguments Return {A} a.
Arguments Raise {A} e.

Definition succeeds {A : Type} (r : result A) : Prop :=
  match r with Return _ => True | Raise _ => False end.

Definition raised {A : Type} (r : result A) : option exn :=
  match r with Return _ => None | Raise e => Some e end.

(** [l[i]] for a non-negative index. *)
Definition subscript {A : Type} (l : list A) (i : nat) : result A :=
  match nth_error l i with
  | Some a => Return a
  | None => Raise IndexError
  end.

(** Conversion of an [int] to a [float], as in the mixed arithmetic
    [int * float]: machine-size integers are converted by the processor,
    larger ones are rounded to nearest-even, and an integer beyond the
    binary64 range raises OverflowError. *)
Definition int63_bound : Z := 2 ^ 63.

Definition float_of_small (z : Z) : float :=
  if (z <? 0)%Z then - PrimFloat.of_uint63 (Uint63.of_Z (- z))
  else PrimFloat.of_uint63 (Uint63.of_Z z).

Definition float_of_int (z : Z) : float :=
  if (Z.abs z <? int63_bound)%Z then float_of_small z
  else SF2Prim (binary_normalize prec emax z 0 false).

Definition as_double (z : Z) : result float :=
  if (Z.abs z <? int63_bound)%Z then Return (float_of_int z)
  else match binary_normalize prec emax z 0 false with
       | S754_infinity _ => Raise OverflowError
       | _ => Return (float_of_int z)
       end.

End Py.
Export Py.

(** ** The numpy operations the module calls *)

Module Np.

(** [ceil v] of a finite binary64 value [(-1)^s * m * 2^e]. *)
Definition ceil_finite (s : bool) (m : positive) (e : Z) : Z :=
  if (0 <=? e)%Z then
    (if s then - (Z.pos m * 2 ^ e) else Z.pos m * 2 ^ e)%Z
  else
    (if s then - (Z.pos m / 2 ^ (- e)) else - ((- Z.pos m) / 2 ^ (- e)))%Z.

(** The number of samples of [arange(start, stop, step)]:
    [ceil((stop - start) / step)], which numpy refuses with a ValueError
    when it is not a number ("cannot compute length") and when it is
    infinite or does not fit a machine index ("Maximum allowed size
    exceeded"); a non-positive count gives the empty array. *)
Definition arange_length (start stop step : float) : result nat :=
  match Prim2SF ((stop - start) / step) with
  | S754_nan => Raise ValueError
  | S754_infinity _ => Raise ValueError
  | S754_zero _ => Return 0%nat
  | S754_finite s m e =>
      let n := ceil_finite s m e in
      if ((- int63_bound <=? n) && (n <=? int63_bound))%Z
      then Return (Z.to_nat n)
      else Raise ValueError
  end.

(** The sample of index [i]: numpy stores [start] and [start + step], and
    fills the rest as [start + i * delta], where [delta] is the
    difference of the two stored samples. *)
Definition arange_sample (start step : float) (i : nat) : float :=
  match i with
  | 0%nat => start
  | 1%nat => start + step
  | _ => start + float_of_int (Z.of_nat i) * ((start + step) - start)
  end.

Definition arange_samples (start step : float) (n : nat) : list float :=
  map (arange_sample start step) (seq 0 n).

Definition arange (start stop step : float) : result (list float) :=
  match arange_length start stop step with
  | Return n => Return (arange_samples start step n)
  | Raise e => Raise e
  end.

(** [np.gradient(f)] of a one-dimensional array with unit spacing:
    one-sided differences at both ends, central differences inside; fewer
    than two samples raise ValueError. *)
Definition gradient_sample (f : list float) (i : nat) : float :=
  let n := length f in
  if (i =? 0)%nat then (nth 1 f 0 - nth 0 f 0) / 1
  else if (i =? n - 1)%nat then (nth (n - 1) f 0 - nth (n - 2) f 0) / 1
  else (nth (i + 1) f 0 - nth (i - 1) f 0) / (2 * 1).

Definition gradient_samples (f : list float) : list float :=
  map (gradient_sample f) (seq 0 (length f)).

Definition gradient (f : list float) : result (list float) :=
  if (length f <? 2)%nat then Raise ValueError
  else Return (gradient_samples f).

(** [y >= t] on an array, and [np.where(mask)[0]]: the indices of the
    true entries, in increasing order. *)
Definition ge_mask (y : list float) (t : float) : list bool :=
  map (fun v => t <=? v) y.

Fixpoint where_from (i : nat) (mask : list bool) : list nat :=
  match mask with
  | [] => []
  | b :: mask' =>
      if b then i :: where_from (S i) mask' else where_from (S i) mask'
  end.

Definition where_true (mask : list bool) : list nat := where_from 0 mask.

(** [x - s] on an array and a scalar. *)
Definition sub_scalar (x : list float) (s : float) : list float :=
  map (fun v => v - s) x.

End Np.

(** ** The effects of a run *)

(** The two figures of the routine: [Fig] is [fig] with its axes [axs] (the
    overlay of conductance curves), [Fig1] is [fig1] with its axes [axs1]
    (the contour of the derivatives). *)
Inductive figure : Type := Fig | Fig1.

(** One constructor per call on matplotlib, on the table and on [print]. *)
Inductive event : Type :=
| Subplots (f : figure)                           (* plt.subplots(1, 1) *)
| Suptitle (f : figure) (title : string)
| SetYlabel (f : figure) (label : string)
| SetXlabel (f : figure) (label : string)
| SetYlim (f : figure) (lo hi : Z)
| SetYticks (f : figure) (ticks : list float)
| Grid                                            (* plt.grid() *)
| AddRow (row : list float)                       (* table.add_row(row) *)
| Plot (f : figure) (xs ys : list float)
| PrintTable (field_names : list string) (rows : list (list float))
| Print (text : string)
| SetXlim (f : figure) (lo : Z) (hi : float)
| Contourf (f : figure) (z : list (list float))
| Colorbar (f : figure)
| Savefig (f : figure) (path : string)
| Show.                                           (* plt.show() *)

(** A computation returns or raises, and has made the calls of its log. *)
Definition run (A : Type) : Type := (result A * list event)%type.

Definition ret {A : Type} (a : A) : run A := (Return a, []).
Definition throw {A : Type} (e : exn) : run A := (Raise e, []).
Definition call (ev : event) : run unit := (Return tt, [ev]).
Definition eval {A : Type} (r : result A) : run A := (r, []).

Definition bind {A B : Type} (m : run A) (k : A -> run B) : run B :=
  match m with
  | (Return a, l) => let (r, l') := k a in (r, l ++ l')
  | (Raise e, l) => (Raise e, l)
  end.

Declare Scope run_scope.
Delimit Scope run_scope with run.
Notation "x <- m ;; k" := (bind m (fun x => k))
  (at level 100, m at next level, right associativity) : run_scope.
Notation "m ;; k" := (bind m (fun _ => k))
  (at level 100, right associativity) : run_scope.

Definition outcome {A : Type} (r : run A) : result A := fst r.
Definition log {A : Type} (r : run A) : list event := snd r.

(** [for i in range(n): st = body(i, st)] *)
Fixpoint for_each {St : Type} (body : nat -> St -> run St) (l : list nat)
    (st : St) : run St :=
  match l with
  | [] => ret st
  | i :: l' => bind (body i st) (for_each body l')
  end.

Definition for_range {St : Type} (n : nat) (body : nat -> St -> run St)
    (st : St) : run St :=
  for_each body (seq 0 n) st.

(** ** The model adapter *)

(** Modelled from the spec: the class [Model] of GSimulator/model.py is not
    among the sources.  An instance exposes the attributes [hw_x], [hw_y],
    [magnetic_field], [angle], [E1], [E2], [eVsd] and [hw_c], all floats,
    the method [zeeman(spin_projection)] and the method
    [total_transmission(channels, energy_axis)]. *)
Record ModelInstance : Type := {
  hw_x : float;
  hw_y : float;
  magnetic_field : float;
  angle : float;
  E1 : float;
  E2 : float;
  eVsd : float;
  hw_c : float;
  zeeman : float -> float;
  total_transmission : Z -> list float -> list float
}.

(** ** A step model of the adapter, for concrete runs *)

Module Demo.

(** A row of the material table. *)
Record Material : Type := {
  name : string;
  g_factor : float;
  effective_mass : float
}.

Definition GaAs : Material :=
  {| name := "GaAs"; g_factor := 1.5; effective_mass := 0.067 |}.

(** A point contact whose subband [k] opens at the reduced energy
    [(k + 1/2) * hw_y / hw_x]: the transmission counts the open subbands
    among the first [channels]. *)
Definition open_subbands (ratio : float) (channels : nat) (e : float) : float :=
  fold_left (fun acc k =>
               if (float_of_int (Z.of_nat k) + 0.5) * ratio <=? e
               then acc + 1 else acc)
            (seq 0 channels) 0.

Definition Model (material : Material) (hw_x hw_y V_sd B angle : float)
  : ModelInstance :=
  {| hw_x := hw_x; hw_y := hw_y; magnetic_field := B; angle := angle;
     E1 := hw_x / 2; E2 := hw_y / 2; eVsd := V_sd;
     hw_c := B / effective_mass material;
     zeeman := fun s => s * g_factor material * B;
     total_transmission := fun channels energy =>
       map (open_subbands (hw_y / hw_x) (Z.to_nat channels)) energy |}.

(** Two configurations that differ in the magnetic field, evaluated with
    three channels and an offset of 5; and one configuration whose
    subbands are a hundred times wider than the sweep is scaled for. *)
Definition two_rows : list (list float) := [[2; 1; 0; 0; 0]; [2; 1; 0; 1; 0]].
Definition wide_row : list (list float) := [[2; 100; 0; 0; 0]].

(** The display sweeps of the two batches, and of the empty batch with one
    channel and the same offset. *)
Definition x_two_rows : list float := Np.arange_samples (-2) 0.1 300.
Definition x_wide_row : list float := Np.arange_samples (-2) 0.1 130.
Definition x_empty : list float := Np.arange_samples (-2) 0.1 80.

(** Three rows set 4.4 apart, with their display sweep. *)
Definition three_rows : list (list float) :=
  [[2; 1; 0; 0; 0]; [2; 1; 0; 0; 0]; [2; 1; 0; 0; 0]].
Definition x_three_rows : list float := Np.arange_samples (-2) 0.1 213.

End Demo.

(** ** read_setup *)

(** A numpy array of floats of dimension 0, 1 or 2. *)
Inductive ndarray : Type :=
| Array0 (v : float)
| Array1 (l : list float)
| Array2 (rows : list (list float)).

Definition ndim (a : ndarray) : nat :=
  match a with Array0 _ => 0 | Array1 _ => 1 | Array2 _ => 2 end.

(** [np.genfromtxt(file_name, delimiter=",", skip_header=1)] on a file whose
    lines after the header hold the numbers [data]: lines of unequal
    length are refused, and axes of length one are squeezed out of the
    table read. *)
Definition rectangular (data : list (list float)) : bool :=
  match data with
  | [] => true
  | r :: data' => forallb (fun r' => (length r' =? length r)%nat) data'
  end.

Definition squeeze (data : list (list float)) : ndarray :=
  match data with
  | [] => Array1 []
  | [r] => match r with [v] => Array0 v | _ => Array1 r end
  | _ => if forallb (fun r => (length r =? 1)%nat) data
         then Array1 (map (fun r => hd 0 r) data)
         else Array2 data
  end.

Definition genfromtxt (data : list (list float)) : result ndarray :=
  if rectangular data then Return (squeeze data) else Raise ValueError.

Definition read_setup (data : list (list float)) : result ndarray :=
  match genfromtxt data with
  | Raise e => Raise e
  | Return exp_setup =>
      match exp_setup with
      | Array1 l => Return (Array2 [l])
      | _ => Return exp_setup
      end
  end.

(** ** plotter *)

(** The local variables the loop updates: the rows given to the table, the
    list [dydx] and [x_min], which is unbound until the last iteration. *)
Record locals : Type := {
  table_rows : list (list float);
  dydx : list (list float);
  x_min : option float
}.

Definition field_names : list string :=
  ["hbar w_x (meV)"; "w_y/ w_x"; "B (T)"; "angle (rad)"; "E1 (meV)";
   "E2 (meV)"; "eVsd (meV)"; "hbar w_c (meV)"; "Zeeman (meV)"]%string.

Definition angle_note : string :=
  "Note: The angle is in radian with respect to the normal of the 2DEG, i.e. a perpendicular field will have angle 0 rad while a parallel field will have angle pi/2 rad.".

(** [x = np.arange(-2, offset * plots + channels * 6, 0.1)] *)
Definition display_sweep (plots : nat) (offset : float) (channels : Z)
  : result (list float) :=
  match as_double (Z.of_nat plots) with
  | Raise e => Raise e
  | Return p =>
      match as_double (channels * 6) with
      | Raise e => Raise e
      | Return c6 => Np.arange (-2) (offset * p + c6) 0.1
      end
  end.

(** [x_diff = np.arange(-2, 30, 0.1)] *)
Definition differential_sweep : result (list float) := Np.arange (-2) 30 0.1.

(** [np.arange(0, channels + 0.25, 0.25)] *)
Definition yticks (channels : Z) : result (list float) :=
  match as_double channels with
  | Raise e => Raise e
  | Return c => Np.arange 0 (c + 0.25) 0.25
  end.

(** The row given to the table for a model. *)
Definition summary_row (model : ModelInstance) : list float :=
  [hw_x model; hw_y model / hw_x model; magnetic_field model; angle model;
   E1 model; E2 model; eVsd model; hw_c model; zeeman model (1 / 2)].

(** [min = np.where(y >= channels - 0.1); x_min_index = min[0][0];
     x_min = x[x_min_index] + 1] *)
Definition saturation_bound (channels : Z) (x y : list float) : result float :=
  match as_double channels with
  | Raise e => Raise e
  | Return c =>
      match subscript (Np.where_true (Np.ge_mask y (c - 0.1))) 0 with
      | Raise e => Raise e
      | Return x_min_index =>
          match subscript x x_min_index with
          | Raise e => Raise e
          | Return v => Return (v + 1)
          end
      end
  end.

Section Plotter.

(** The material handed to the model, and the constructor
    [Model(material, hw_x, hw_y, V_sd, B, angle)] of the adapter. *)
Variable Material : Type.
Variable Model :
  Material -> float -> float -> float -> float -> float -> ModelInstance.

Local Open Scope run_scope.

(** Lines 102-110: the model of one row of the setup. *)
Definition configure (material : Material) (experiment : list float)
  : result ModelInstance :=
  match subscript experiment 0 with
  | Raise e => Raise e
  | Return hw_x =>
  match subscript experiment 1 with
  | Raise e => Raise e
  | Return ratio =>
  let hw_y := ratio * hw_x in
  match subscript experiment 2 with
  | Raise e => Raise e
  | Return V_sd =>
  match subscript experiment 3 with
  | Raise e => Raise e
  | Return B =>
  match subscript experiment 4 with
  | Raise e => Raise e
  | Return angle => Return (Model material hw_x hw_y V_sd B angle)
  end end end end end.

(** The body of the loop, lines 101-124. *)
Definition loop_body (material : Material) (exp_setup : list (list float))
    (channels : Z) (offset : float) (x x_diff : list float)
    (i : nat) (st : locals) : run locals :=
  let plots := length exp_setup in
  experiment <- eval (subscript exp_setup i) ;;
  model <- eval (configure material experiment) ;;
  let row := summary_row model in
  call (AddRow row) ;;
  fi <- eval (as_double (Z.of_nat i)) ;;
  let y := total_transmission model channels (Np.sub_scalar x (fi * offset)) in
  let y_diff := total_transmission model channels x_diff in
  call (Plot Fig x y) ;;
  bound <- (if (Z.of_nat i =? Z.of_nat plots - 1)%Z
            then v <- eval (saturation_bound channels x y) ;; ret (Some v)
            else ret (x_min st)) ;;
  g <- eval (Np.gradient y_diff) ;;
  ret {| table_rows := table_rows st ++ [row];
         dydx := dydx st ++ [g];
         x_min := bound |}.

(** Lines 93-124: the sweeps and the loop over the rows of the setup. *)
Definition evaluate (material : Material) (exp_setup : list (list float))
    (channels : Z) (offset : float) : run locals :=
  let plots := length exp_setup in
  x <- eval (display_sweep plots offset channels) ;;
  x_diff <- eval differential_sweep ;;
  for_range plots (loop_body material exp_setup channels offset x x_diff)
    {| table_rows := []; dydx := []; x_min := None |}.

(** Lines 134-146: the contour figure of a batch of more than one row. *)
Definition diff_plot (plots : nat) (offset : float) (graph_name : string)
    (savefig : option string) (st : locals) (bound : float) : run unit :=
  if (1 <? Z.of_nat plots)%Z then
    call (Subplots Fig1) ;;
    call (Suptitle Fig1 ("Diff Conductance " ++ graph_name)%string) ;;
    call (SetXlabel Fig1 "$ 10 \times E_{f}$") ;;
    call (SetYlabel Fig1 "Experiments") ;;
    p3 <- eval (as_double (Z.of_nat plots - 3)) ;;
    call (SetXlim Fig1 0 ((bound - p3 * offset) * 10)) ;;
    call (Contourf Fig1 (dydx st)) ;;
    call (Colorbar Fig1) ;;
    match savefig with
    | Some file_name =>
        call (Savefig Fig1 (("./Results/" ++ "diff_") ++ file_name)%string)
    | None => ret tt
    end
  else ret tt.

Definition plotter (material : Material) (exp_setup : list (list float))
    (channels : Z) (offset : float) (graph_name fmt : string)
    (savefig : option string) : run unit :=
  call (Subplots Fig) ;;
  call (Suptitle Fig graph_name) ;;
  call (SetYlabel Fig "$G \times \frac{h}{2e^{2}} $") ;;
  call (SetXlabel Fig "$ \frac{E_{f} - U_{0}}{\hbar w_{x}}$") ;;
  call (SetYlim Fig 0 channels) ;;
  ticks <- eval (yticks channels) ;;
  call (SetYticks Fig ticks) ;;
  call Grid ;;
  let plots := length exp_setup in
  st <- evaluate material exp_setup channels offset ;;
  call (PrintTable field_names (table_rows st)) ;;
  call (Print angle_note) ;;
  bound <- match x_min st with
           | Some v => ret v
           | None => throw (UnboundLocalError "x_min")
           end ;;
  call (SetXlim Fig (-1) bound) ;;
  diff_plot plots offset graph_name savefig st bound ;;
  match savefig with
  | Some file_name => call (Savefig Fig ("./Results/" ++ file_name)%string)
  | None => ret tt
  end ;;
  call Show.

Local Close Scope run_scope.
Local Close Scope float_scope.

(** ** The parts of a call *)

(** The contract of the adapter the routine relies on: a transmission
    curve has one sample per sample of the energy axis. *)
Definition transmission_contract : Prop :=
  forall material a b c d e channels energy,
    length (total_transmission (Model material a b c d e) channels energy)
    = length energy.

Variable material : Material.
Variable exp_setup : list (list float).
Variable channels : Z.
Variable offset : float.
Variables graph_name fmt : string.
Variable savefig : option string.

(** The requirements on a call under which the steps before the
    saturation lookup go through: every row of the setup has its five
    columns, the integers converted to floats are machine-size, and
    numpy can build the tick positions and the display sweep [x]. *)
Definition valid_call (x : list float) : Prop :=
  Forall (fun experiment => 5 <= length experiment) exp_setup /\
  (Z.of_nat (length exp_setup) < int63_bound)%Z /\
  (Z.abs (channels * 6) < int63_bound)%Z /\
  succeeds (yticks channels) /\
  display_sweep (length exp_setup) offset channels = Return x.

(** The model of a row, lines 102-110, for a row with its five columns. *)
Definition model_of (experiment : list float) : ModelInstance :=
  Model material
    (nth 0 experiment 0%float)
    (nth 1 experiment 0 * nth 0 experiment 0)%float
    (nth 2 experiment 0%float)
    (nth 3 experiment 0%float)
    (nth 4 experiment 0%float).

(** Lines 116, 117 and 124 for the row of index [i]. *)
Definition overlay_trace (x : list float) (i : nat) (experiment : list float)
  : list float :=
  total_transmission (model_of experiment) channels
    (Np.sub_scalar x (float_of_int (Z.of_nat i) * offset)%float).

Definition derivative_row (x_diff : list float) (experiment : list float)
  : list float :=
  Np.gradient_samples (total_transmission (model_of experiment) channels x_diff).

(** The samples of the differential sweep. *)
Definition x_diff_samples : list float := Np.arange_samples (-2)%float 0.1%float 320.

(** The threshold of the saturation lookup, [channels - 0.1]. *)
Definition threshold : float := (float_of_int channels - 0.1)%float.

Definition row_at (i : nat) : list float := nth i exp_setup [].

(** What the iteration of index [i] logs, and the locals after [k]
    iterations. *)
Definition iteration_log (x : list float) (i : nat) : list event :=
  [AddRow (summary_row (model_of (row_at i)));
   Plot Fig x (overlay_trace x i (row_at i))].

Definition loop_log (x : list float) (k : nat) : list event :=
  flat_map (iteration_log x) (seq 0 k).

Definition locals_after (k : nat) (bound : option float) : locals :=
  {| table_rows := map (fun i => summary_row (model_of (row_at i))) (seq 0 k);
     dydx := map (fun i => derivative_row x_diff_samples (row_at i)) (seq 0 k);
     x_min := bound |}.

Definition tick_positions : list float :=
  match yticks channels with Return t => t | Raise _ => [] end.

(** What a call logs outside the loop: the set-up of the overlay (lines
    80-86), the report (lines 126-127), the contour figure (lines 134-146)
    and the file of the overlay (lines 148-149). *)
Definition init_log : list event :=
  [Subplots Fig; Suptitle Fig graph_name;
   SetYlabel Fig "$G \times \frac{h}{2e^{2}} $";
   SetXlabel Fig "$ \frac{E_{f} - U_{0}}{\hbar w_{x}}$";
   SetYlim Fig 0 channels; SetYticks Fig tick_positions; Grid].

Definition report_log (st : locals) : list event :=
  [PrintTable field_names (table_rows st); Print angle_note].

Definition diff_save_log : list event :=
  match savefig with
  | Some file_name =>
      [Savefig Fig1 (("./Results/" ++ "diff_") ++ file_name)%string]
  | None => []
  end.

Definition diff_log (st : locals) (bound : float) : list event :=
  if (1 <? Z.of_nat (length exp_setup))%Z then
    [Subplots Fig1; Suptitle Fig1 ("Diff Conductance " ++ graph_name)%string;
     SetXlabel Fig1 "$ 10 \times E_{f}$"; SetYlabel Fig1 "Experiments";
     SetXlim Fig1 0
       ((bound - float_of_int (Z.of_nat (length exp_setup) - 3) * offset)
        * 10)%float;
     Contourf Fig1 (dydx st); Colorbar Fig1] ++ diff_save_log
  else [].

Definition save_log : list event :=
  match savefig with
  | Some file_name => [Savefig Fig ("./Results/" ++ file_name)%string]
  | None => []
  end.

(** ** The saturation lookup and the log *)

(** [k] is the first position of [y] whose sample is at least [t]. *)
Definition first_at_least (t : float) (y : list float) (k : nat) : Prop :=
  (exists v, nth_error y k = Some v /\ (t <=? v)%float = true) /\
  (forall j u, j < k -> nth_error y j = Some u -> (t <=? u)%float = false).

(** No sample of [y] is at least [t]. *)
Definition none_at_least (t : float) (y : list float) : Prop :=
  forall v, In v y -> (t <=? v)%float = false.

(** The entries of a log that [pick] selects, in order. *)
Definition collect {A : Type} (pick : event -> option A) (l : list event)
  : list A :=
  flat_map (fun ev => match pick ev with Some a => [a] | None => [] end) l.

(** The rows given to the table, the curves plotted on the overlay axes,
    the files written and the contours drawn. *)
Definition pick_row (ev : event) : option (list float) :=
  match ev with AddRow row => Some row | _ => None end.

Definition pick_overlay (ev : event) : option (list float * list float) :=
  match ev with Plot Fig xs ys => Some (xs, ys) | _ => None end.

Definition pick_save (ev : event) : option (figure * string) :=
  match ev with Savefig f path => Some (f, path) | _ => None end.

Definition pick_contour (ev : event) : option (figure * list (list float)) :=
  match ev with Contourf f z => Some (f, z) | _ => None end.

Definition added_rows (l : list event) := collect pick_row l.
Definition overlay_plots (l : list event) := collect pick_overlay l.
Definition saved_files (l : list event) := collect pick_save l.
Definition contours (l : list event) := collect pick_contour l.

(** An event that sets the limits of the x axis of the overlay, as
    [set_xlim] does and as plotting a curve does by autoscaling. *)
Definition sets_overlay_xlim (ev : event) : bool :=
  match ev with
  | SetXlim Fig _ _ | Plot Fig _ _ => true
  | _ => false
  end.

(** A run that ends with an exception raised by a [raise] statement. *)
Definition explicit_error {A : Type} (r : result A) : Prop :=
  exists msg, r = Raise (Exception msg).

(** The tables printed and the x limits set on the contour axes. *)
Definition pick_table (ev : event) : option (list string * list (list float)) :=
  match ev with PrintTable names rows => Some (names, rows) | _ => None end.

Definition pick_contour_xlim (ev : event) : option (Z * float) :=
  match ev with SetXlim Fig1 lo hi => Some (lo, hi) | _ => None end.

Definition printed_tables (l : list event) := collect pick_table l.
Definition contour_xlims (l : list event) := collect pick_contour_xlim l.

Definition is_show (ev : event) : bool :=
  match ev with Show => true | _ => false end.

(** The events of the loop: a table row with one entry per field name, or a
    curve on the overlay axes. *)
Definition loop_event (ev : event) : Prop :=
  match ev with
  | AddRow row => length row = length field_names
  | Plot Fig _ _ => True
  | _ => False
  end.

(** The calls of lines 80-84, made before the tick positions are computed. *)
Definition axes_log : list event :=
  [Subplots Fig; Suptitle Fig graph_name;
   SetYlabel Fig "$G \times \frac{h}{2e^{2}} $";
   SetXlabel Fig "$ \frac{E_{f} - U_{0}}{\hbar w_{x}}$";
   SetYlim Fig 0 channels].

(** What the loop keeps, iteration after iteration. *)
Definition loop_invariant (k : nat) (st : locals) (l : list event) : Prop :=
  length (table_rows st) = k /\
  length (dydx st) = k /\
  added_rows l = table_rows st /\
  length (overlay_plots l) = k /\
  (k = 0 \/ k < length exp_setup -> x_min st = None) /\
  (0 < k -> k = length exp_setup -> x_min st <> None).

(** * Properties *)

(** ** Runs *)

Lemma bind_call {B : Type} (ev : event) (k : unit -> run B) :
  bind (call ev) k = (outcome (k tt), ev :: log (k tt)).
Proof. unfold bind, call, outcome, log. destruct (k tt); reflexivity. Qed.

Lemma bind_eval_Return {A B : Type} (a : A) (k : A -> run B) :
  bind (eval (Return a)) k = k a.
Proof. unfold bind, eval. destruct (k a); reflexivity. Qed.

Lemma bind_eval_Raise {A B : Type} (e : exn) (k : A -> run B) :
  bind (eval (Raise e)) k = (Raise e, []).
Proof. reflexivity. Qed.

Lemma bind_ret {A B : Type} (a : A) (k : A -> run B) : bind (ret a) k = k a.
Proof. apply bind_eval_Return. Qed.

Lemma bind_throw {A B : Type} (e : exn) (k : A -> run B) :
  bind (throw e) k = (Raise e, []).
Proof. reflexivity. Qed.

Lemma bind_Return {A B : Type} (a : A) (l : list event) (k : A -> run B) :
  bind (Return a, l) k = (outcome (k a), l ++ log (k a)).
Proof. unfold bind, outcome, log. destruct (k a); reflexivity. Qed.

Lemma bind_Raise {A B : Type} (e : exn) (l : list event) (k : A -> run B) :
  bind (Raise e, l) k = (Raise e, l).
Proof. reflexivity. Qed.

Lemma bind_ret_r {A : Type} (m : run A) : bind m ret = m.
Proof.
  destruct m as [[a | e] l]; simpl; [rewrite app_nil_r |]; reflexivity.
Qed.

Lemma bind_assoc {A B C : Type} (m : run A) (f : A -> run B) (g : B -> run C) :
  bind (bind m f) g = bind m (fun a => bind (f a) g).
Proof.
  destruct m as [[a | e] l]; simpl; [| reflexivity].
  destruct (f a) as [[b | e] l1]; simpl; [| reflexivity].
  destruct (g b) as [r l2]. rewrite app_assoc. reflexivity.
Qed.

Lemma for_each_app {St : Type} (body : nat -> St -> run St) (l1 l2 : list nat) :
  forall st,
    for_each body (l1 ++ l2) st = bind (for_each body l1 st) (for_each body l2).
Proof.
  induction l1 as [| i l1 IH]; intros st; cbn [for_each app].
  - symmetry. apply bind_ret.
  - rewrite bind_assoc.
    destruct (body i st) as [[st' | e] l]; cbn [bind]; [| reflexivity].
    rewrite IH. reflexivity.
Qed.

Lemma for_range_S {St : Type} (n : nat) (body : nat -> St -> run St) (st : St) :
  for_range (S n) body st = bind (for_range n body st) (body n).
Proof.
  unfold for_range. rewrite seq_S, for_each_app. cbn [for_each Nat.add].
  destruct (for_each body (seq 0 n) st) as [[st' | e] l]; cbn [bind];
    [| reflexivity].
  rewrite bind_ret_r. reflexivity.
Qed.

(** ** Python and numpy operations *)

Lemma as_double_small (z : Z) :
  (Z.abs z < int63_bound)%Z -> as_double z = Return (float_of_int z).
Proof.
  intros H. unfold as_double.
  destruct (Z.ltb_spec (Z.abs z) int63_bound) as [_ | Hge]; [reflexivity | lia].
Qed.

Lemma as_double_index (n i : nat) :
  (Z.of_nat n < int63_bound)%Z -> i < n ->
  as_double (Z.of_nat i) = Return (float_of_int (Z.of_nat i)).
Proof. intros Hn Hi. apply as_double_small. lia. Qed.

Lemma subscript_Some {A : Type} (l : list A) (i : nat) (a : A) :
  nth_error l i = Some a -> subscript l i = Return a.
Proof. intros H. unfold subscript. rewrite H. reflexivity. Qed.

Lemma subscript_nth {A : Type} (l : list A) (i : nat) (d : A) :
  i < length l -> subscript l i = Return (nth i l d).
Proof. intros H. apply subscript_Some, nth_error_nth'. exact H. Qed.

Lemma nth_error_map_seq {A : Type} (g : nat -> A) (n i : nat) :
  i < n -> nth_error (map g (seq 0 n)) i = Some (g i).
Proof.
  intros H. rewrite nth_error_map.
  rewrite (nth_error_nth' (seq 0 n) 0) by (rewrite length_seq; exact H).
  rewrite seq_nth by exact H. reflexivity.
Qed.


Lemma arange_Return (start stop step : float) (l : list float) :
  Np.arange start stop step = Return l ->
  Np.arange_length start stop step = Return (length l) /\
  l = Np.arange_samples start step (length l).
Proof.
  unfold Np.arange. destruct (Np.arange_length start stop step) as [n | e];
    [| discriminate].
  intros H. injection H as <-.
  unfold Np.arange_samples. rewrite length_map, length_seq. split; reflexivity.
Qed.

Lemma arange_samples_nth (start step : float) (n k : nat) :
  k < n ->
  nth_error (Np.arange_samples start step n) k
  = Some (Np.arange_sample start step k).
Proof. apply nth_error_map_seq. Qed.

Lemma gradient_samples_length (f : list float) :
  length (Np.gradient_samples f) = length f.
Proof. unfold Np.gradient_samples. rewrite length_map, length_seq. reflexivity. Qed.

Lemma gradient_Return (f : list float) :
  2 <= length f -> Np.gradient f = Return (Np.gradient_samples f).
Proof.
  intros H. unfold Np.gradient.
  destruct (Nat.ltb_spec (length f) 2) as [Hlt | _]; [lia | reflexivity].
Qed.

Lemma where_from_none (mask : list bool) :
  (forall b, In b mask -> b = false) -> forall i, Np.where_from i mask = [].
Proof.
  induction mask as [| b mask IH]; intros H i; [reflexivity |].
  cbn [Np.where_from]. rewrite (H b (or_introl eq_refl)).
  apply IH. intros b' Hb'. apply H. right. exact Hb'.
Qed.

Lemma where_from_first (mask : list bool) :
  forall i k,
    nth_error mask k = Some true ->
    (forall j, j < k -> nth_error mask j = Some false) ->
    exists rest, Np.where_from i mask = (i + k) :: rest.
Proof.
  induction mask as [| b mask IH]; intros i k Hk Hlt.
  - destruct k; discriminate.
  - destruct k as [| k].
    + injection Hk as ->. cbn [Np.where_from]. rewrite Nat.add_0_r. eauto.
    + assert (Hb : b = false).
      { specialize (Hlt 0 (Nat.lt_0_succ k)). injection Hlt as ->. reflexivity. }
      subst b. cbn [Np.where_from].
      destruct (IH (S i) k Hk) as [rest Hrest].
      * intros j Hj. apply (Hlt (S j)). lia.
      * exists rest. rewrite Hrest. f_equal. lia.
Qed.

Lemma where_from_head (mask : list bool) :
  forall i k rest,
    Np.where_from i mask = k :: rest ->
    i <= k /\ nth_error mask (k - i) = Some true /\
    (forall j, j < k - i -> nth_error mask j = Some false).
Proof.
  induction mask as [| b mask IH]; intros i k rest H; [discriminate |].
  cbn [Np.where_from] in H. destruct b.
  - injection H as <- _. rewrite Nat.sub_diag. repeat split; [lia |].
    intros j Hj. lia.
  - destruct (IH _ _ _ H) as (Hle & Hk & Hlt).
    replace (k - i) with (S (k - S i)) by lia. repeat split; [lia | exact Hk |].
    intros [| j] Hj; [reflexivity |]. apply Hlt. lia.
Qed.

Lemma ge_mask_nth (y : list float) (t : float) (k : nat) :
  nth_error (Np.ge_mask y t) k = option_map (fun v => (t <=? v)%float) (nth_error y k).
Proof. apply nth_error_map. Qed.

(** ** The saturation lookup *)

Lemma where_true_none (t : float) (y : list float) :
  none_at_least t y -> Np.where_true (Np.ge_mask y t) = [].
Proof.
  intros H. apply where_from_none. intros b Hb.
  apply in_map_iff in Hb. destruct Hb as (v & <- & Hv). apply H, Hv.
Qed.

Lemma where_true_first (t : float) (y : list float) (k : nat) :
  first_at_least t y k ->
  exists rest, Np.where_true (Np.ge_mask y t) = k :: rest.
Proof.
  intros [(v & Hv & Hge) Hlt].
  apply (where_from_first (Np.ge_mask y t) 0 k).
  - rewrite ge_mask_nth, Hv. cbn [option_map]. rewrite Hge. reflexivity.
  - intros j Hj. rewrite ge_mask_nth.
    assert (Hlen : j < length y).
    { apply Nat.lt_trans with k; [exact Hj |].
      apply nth_error_Some. rewrite Hv. discriminate. }
    destruct (nth_error y j) as [u |] eqn:Hu.
    + cbn [option_map]. rewrite (Hlt j u Hj Hu). reflexivity.
    + apply nth_error_None in Hu. lia.
Qed.

Lemma where_true_cases (t : float) (y : list float) :
  none_at_least t y \/ exists k, first_at_least t y k.
Proof.
  destruct (Np.where_true (Np.ge_mask y t)) as [| k rest] eqn:Hw.
  - left. intros v Hv. destruct (t <=? v)%float eqn:Hge; [| reflexivity].
    apply In_nth_error in Hv. destruct Hv as [k Hk].
    exfalso.
    assert (Hex : exists k', k' <= k /\ first_at_least t y k').
    { clear Hw. revert v Hk Hge.
      induction k as [k IH] using lt_wf_ind. intros v Hk Hge.
      destruct (existsb (fun u => (t <=? u)%float) (firstn k y)) eqn:Hex.
      - apply existsb_exists in Hex. destruct Hex as (u & Hu & Hgeu).
        apply In_nth_error in Hu. destruct Hu as [j Hj].
        assert (Hjk : j < k).
        { assert (j < length (firstn k y))
            by (apply nth_error_Some; rewrite Hj; discriminate).
          rewrite length_firstn in H. lia. }
        rewrite nth_error_firstn in Hj.
        destruct (Nat.ltb_spec j k) as [_ | Hge']; [| lia].
        destruct (IH j Hjk u Hj Hgeu) as (k' & Hle & Hfirst).
        exists k'. split; [lia | exact Hfirst].
      - exists k. split; [lia |]. split; [eauto |].
        intros j u Hj Hu.
        destruct (t <=? u)%float eqn:Hgeu; [| reflexivity].
        assert (Hin : In u (firstn k y)).
        { apply (nth_error_In _ j). rewrite nth_error_firstn.
          destruct (Nat.ltb_spec j k); [exact Hu | lia]. }
        assert (Htrue : existsb (fun u => (t <=? u)%float) (firstn k y) = true)
          by (apply existsb_exists; eauto).
        congruence. }
    destruct Hex as (k' & _ & Hfirst).
    destruct (where_true_first t y k' Hfirst) as [rest Hrest]. congruence.
  - right. exists k.
    destruct (where_from_head _ _ _ _ Hw) as (_ & Hk & Hlt).
    rewrite Nat.sub_0_r in Hk, Hlt. rewrite ge_mask_nth in Hk.
    destruct (nth_error y k) as [v |] eqn:Hv; [| discriminate].
    cbn [option_map] in Hk. split; [exists v; split; congruence |].
    intros j u Hj Hu. specialize (Hlt j Hj). rewrite ge_mask_nth, Hu in Hlt.
    cbn [option_map] in Hlt. congruence.
Qed.

Lemma saturation_bound_none (c : Z) (x y : list float) :
  (Z.abs c < int63_bound)%Z ->
  none_at_least (float_of_int c - 0.1)%float y ->
  saturation_bound c x y = Raise IndexError.
Proof.
  intros Hc Hnone. unfold saturation_bound.
  rewrite (as_double_small c Hc), (where_true_none _ _ Hnone).
  reflexivity.
Qed.

Lemma saturation_bound_first (c : Z) (x y : list float) (k : nat) (xk : float) :
  (Z.abs c < int63_bound)%Z ->
  first_at_least (float_of_int c - 0.1)%float y k ->
  nth_error x k = Some xk ->
  saturation_bound c x y = Return (xk + 1)%float.
Proof.
  intros Hc Hfirst Hx. unfold saturation_bound.
  rewrite (as_double_small c Hc).
  destruct (where_true_first _ _ _ Hfirst) as [rest ->].
  rewrite (subscript_Some (k :: rest) 0 k eq_refl).
  rewrite (subscript_Some x k xk Hx). reflexivity.
Qed.

(** ** Reading a log *)

Lemma collect_app {A : Type} (pick : event -> option A) (l1 l2 : list event) :
  collect pick (l1 ++ l2) = collect pick l1 ++ collect pick l2.
Proof. apply flat_map_app. Qed.

Lemma flat_map_single {A B : Type} (g : A -> B) (l : list A) :
  flat_map (fun a => [g a]) l = map g l.
Proof. induction l as [| a l IH]; [reflexivity |]. cbn. rewrite IH. reflexivity. Qed.

Lemma flat_map_none {A B : Type} (l : list A) :
  flat_map (fun _ : A => @nil B) l = [].
Proof. induction l as [| a l IH]; [reflexivity | exact IH]. Qed.

Lemma collect_flat_map {A B : Type} (pick : event -> option A)
    (f : B -> list event) (l : list B) :
  collect pick (flat_map f l) = flat_map (fun b => collect pick (f b)) l.
Proof.
  induction l as [| b l IH]; [reflexivity |].
  cbn [flat_map]. rewrite collect_app, IH. reflexivity.
Qed.

Lemma not_explicit_IndexError {A : Type} : ~ explicit_error (@Raise A IndexError).
Proof. intros [msg H]. discriminate. Qed.

Lemma none_at_least_forallb (t : float) (y : list float) :
  forallb (fun v => negb (t <=? v)%float) y = true -> none_at_least t y.
Proof.
  intros H v Hv. rewrite forallb_forall in H. specialize (H v Hv).
  destruct (t <=? v)%float; [discriminate | reflexivity].
Qed.

(** ** No error of the routine's own *)

(** Every exception a call can end with is raised by the interpreter or by
    numpy: the module has no [raise] statement. *)

Lemma result_bind_not_explicit {A B : Type} (r : result A) (g : A -> result B) :
  ~ explicit_error r ->
  (forall a, ~ explicit_error (g a)) ->
  ~ explicit_error (match r with Return a => g a | Raise e => Raise e end).
Proof.
  intros Hr Hg. destruct r as [a | e]; [apply Hg |].
  intros [msg H]. apply Hr. exists msg. injection H as ->. reflexivity.
Qed.

Lemma Return_not_explicit {A : Type} (a : A) : ~ explicit_error (Return a).
Proof. intros [msg H]. discriminate. Qed.

Lemma subscript_not_explicit {A : Type} (l : list A) (i : nat) :
  ~ explicit_error (subscript l i).
Proof.
  unfold subscript. destruct (nth_error l i); intros [msg H]; discriminate.
Qed.

Lemma as_double_not_explicit (z : Z) : ~ explicit_error (as_double z).
Proof.
  unfold as_double. destruct (Z.abs z <? int63_bound)%Z;
    [apply Return_not_explicit |].
  destruct (binary_normalize prec emax z 0 false);
    intros [msg H]; discriminate.
Qed.

Lemma arange_not_explicit (start stop step : float) :
  ~ explicit_error (Np.arange start stop step).
Proof.
  unfold Np.arange, Np.arange_length.
  destruct (Prim2SF ((stop - start) / step)) as [s | s | | s m e];
    try (intros [msg H]; discriminate).
  destruct ((- int63_bound <=? Np.ceil_finite s m e)
            && (Np.ceil_finite s m e <=? int63_bound))%Z;
    intros [msg H]; discriminate.
Qed.

Lemma gradient_not_explicit (f : list float) : ~ explicit_error (Np.gradient f).
Proof.
  unfold Np.gradient. destruct (length f <? 2); intros [msg H]; discriminate.
Qed.

Lemma saturation_bound_not_explicit (c : Z) (x y : list float) :
  ~ explicit_error (saturation_bound c x y).
Proof.
  unfold saturation_bound.
  apply result_bind_not_explicit; [apply as_double_not_explicit | intros t].
  apply result_bind_not_explicit; [apply subscript_not_explicit | intros k].
  apply result_bind_not_explicit; [apply subscript_not_explicit | intros v].
  apply Return_not_explicit.
Qed.

Lemma display_sweep_not_explicit (plots : nat) (o : float) (c : Z) :
  ~ explicit_error (display_sweep plots o c).
Proof.
  unfold display_sweep.
  apply result_bind_not_explicit; [apply as_double_not_explicit | intros p].
  apply result_bind_not_explicit; [apply as_double_not_explicit | intros c6].
  apply arange_not_explicit.
Qed.

Lemma yticks_not_explicit (c : Z) : ~ explicit_error (yticks c).
Proof.
  unfold yticks.
  apply result_bind_not_explicit; [apply as_double_not_explicit | intros t].
  apply arange_not_explicit.
Qed.

Lemma configure_not_explicit (mat : Material) (experiment : list float) :
  ~ explicit_error (configure mat experiment).
Proof.
  unfold configure.
  repeat (apply result_bind_not_explicit;
          [apply subscript_not_explicit | intros ?]).
  apply Return_not_explicit.
Qed.

Lemma bind_not_explicit {A B : Type} (m : run A) (k : A -> run B) :
  ~ explicit_error (outcome m) ->
  (forall a, ~ explicit_error (outcome (k a))) ->
  ~ explicit_error (outcome (bind m k)).
Proof.
  intros Hm Hk. destruct m as [[a | e] l].
  - rewrite bind_Return. apply Hk.
  - intros [msg H]. apply Hm. exists msg.
    cbn [bind outcome fst] in *. injection H as ->. reflexivity.
Qed.

Lemma for_each_not_explicit {St : Type} (step : nat -> St -> run St)
    (l : list nat) :
  (forall i st, ~ explicit_error (outcome (step i st))) ->
  forall st, ~ explicit_error (outcome (for_each step l st)).
Proof.
  intros Hstep. induction l as [| i l IH]; intros st; cbn [for_each].
  - apply Return_not_explicit.
  - apply bind_not_explicit; [apply Hstep | exact IH].
Qed.

Ltac not_explicit_step :=
  first
    [ apply Return_not_explicit
    | apply saturation_bound_not_explicit
    | apply display_sweep_not_explicit
    | apply yticks_not_explicit
    | apply configure_not_explicit
    | apply subscript_not_explicit
    | apply as_double_not_explicit
    | apply arange_not_explicit
    | apply gradient_not_explicit
    | apply bind_not_explicit; [| intros ?] ].

Ltac not_explicit := repeat not_explicit_step.

Lemma loop_body_not_explicit (mat : Material) (setup : list (list float))
    (c : Z) (o : float) (x x_diff : list float) (i : nat) (st : locals) :
  ~ explicit_error (outcome (loop_body mat setup c o x x_diff i st)).
Proof.
  unfold loop_body, eval, call, ret; cbn [outcome fst]. not_explicit.
  destruct (Z.of_nat i =? Z.of_nat (length setup) - 1)%Z; not_explicit.
Qed.

Lemma evaluate_not_explicit (mat : Material) (setup : list (list float))
    (c : Z) (o : float) :
  ~ explicit_error (outcome (evaluate mat setup c o)).
Proof.
  unfold evaluate, differential_sweep, eval.
  apply bind_not_explicit; [apply display_sweep_not_explicit | intros x].
  apply bind_not_explicit; [apply arange_not_explicit | intros x_diff].
  apply for_each_not_explicit. intros i st. apply loop_body_not_explicit.
Qed.

Lemma diff_plot_not_explicit (plots : nat) (o : float) (title : string)
    (file : option string) (st : locals) (v : float) :
  ~ explicit_error (outcome (diff_plot plots o title file st v)).
Proof.
  unfold diff_plot, eval, call, ret.
  destruct (1 <? Z.of_nat plots)%Z; [| apply Return_not_explicit].
  not_explicit. destruct file; apply Return_not_explicit.
Qed.

(** Whatever the arguments, a call of [plotter] does not end with an error
    raised by the routine itself. *)
Lemma plotter_not_explicit (mat : Material) (setup : list (list float))
    (c : Z) (o : float) (title format : string) (file : option string) :
  ~ explicit_error (outcome (plotter mat setup c o title format file)).
Proof.
  unfold plotter, eval, call, ret, throw.
  repeat first
    [ apply evaluate_not_explicit
    | apply diff_plot_not_explicit
    | match goal with
      | |- ~ explicit_error (outcome (match ?t with _ => _ end)) => destruct t
      end
    | intros [msg H]; discriminate
    | not_explicit_step ].
Qed.

(** ** Samples written out *)

Lemma float_of_nat_index (k : nat) :
  (Z.of_nat k < int63_bound)%Z ->
  float_of_int (Z.of_nat k) = PrimFloat.of_uint63 (Uint63.of_Z (Z.of_nat k)).
Proof.
  intros Hk. unfold float_of_int, float_of_small.
  destruct (Z.ltb_spec (Z.abs (Z.of_nat k)) int63_bound) as [_ | Hge]; [| lia].
  destruct (Z.ltb_spec (Z.of_nat k) 0) as [Hneg | _]; [lia | reflexivity].
Qed.

Lemma float_of_small_int (z : Z) :
  (Z.abs z < int63_bound)%Z ->
  float_of_int z
  = if (z <? 0)%Z then (- PrimFloat.of_uint63 (Uint63.of_Z (- z)))%float
    else PrimFloat.of_uint63 (Uint63.of_Z z).
Proof.
  intros Hz. unfold float_of_int, float_of_small.
  destruct (Z.ltb_spec (Z.abs z) int63_bound) as [_ | Hge]; [reflexivity | lia].
Qed.

Lemma arange_length_bound (start stop step : float) (n : nat) :
  Np.arange_length start stop step = Return n ->
  (Z.of_nat n <= int63_bound)%Z.
Proof.
  unfold Np.arange_length.
  destruct (Prim2SF ((stop - start) / step)) as [s | s | | s m e];
    try discriminate.
  - intros H. injection H as <-. unfold int63_bound. cbn. lia.
  - destruct ((- int63_bound <=? Np.ceil_finite s m e)
              && (Np.ceil_finite s m e <=? int63_bound))%Z eqn:Hin;
      [| discriminate].
    intros H. injection H as <-.
    apply andb_prop in Hin. destruct Hin as [_ Hle].
    apply Z.leb_le in Hle. unfold int63_bound in *. lia.
Qed.

(** The count of samples is the ceiling of the quotient [m * 2 ^ e]. *)
Lemma arange_length_ceiling (start stop step : float) (n : nat) :
  Np.arange_length start stop step = Return n ->
  match Prim2SF ((stop - start) / step) with
  | S754_finite false m e =>
      if (0 <=? e)%Z then (Z.of_nat n = Z.pos m * 2 ^ e)%Z
      else ((Z.of_nat n - 1) * 2 ^ (- e) < Z.pos m <= Z.of_nat n * 2 ^ (- e))%Z
  | S754_finite true _ _ | S754_zero _ => n = 0
  | S754_nan | S754_infinity _ => False
  end.
Proof.
  unfold Np.arange_length.
  destruct (Prim2SF ((stop - start) / step)) as [s | s | | s m e];
    try discriminate.
  - intros H. injection H as <-. reflexivity.
  - destruct ((- int63_bound <=? Np.ceil_finite s m e)
              && (Np.ceil_finite s m e <=? int63_bound))%Z; [| discriminate].
    intros H. injection H as <-. unfold Np.ceil_finite.
    destruct (Z.leb_spec 0 e) as [He | He]; destruct s.
    + assert (0 < 2 ^ e)%Z by (apply Z.pow_pos_nonneg; lia). nia.
    + assert (0 < 2 ^ e)%Z by (apply Z.pow_pos_nonneg; lia).
      rewrite Z2Nat.id by nia. reflexivity.
    + assert (Hd : (0 < 2 ^ (- e))%Z) by (apply Z.pow_pos_nonneg; lia).
      assert (0 <= Z.pos m / 2 ^ (- e))%Z by (apply Z.div_pos; lia). lia.
    + assert (Hd : (0 < 2 ^ (- e))%Z) by (apply Z.pow_pos_nonneg; lia).
      pose proof (Z.mul_div_le (- Z.pos m) (2 ^ (- e)) Hd) as Hlo.
      pose proof (Z.mul_succ_div_gt (- Z.pos m) (2 ^ (- e)) Hd) as Hhi.
      assert (Hq : (- Z.pos m / 2 ^ (- e) < 0)%Z)
        by (apply Z.div_lt_upper_bound; lia).
      rewrite Z2Nat.id by lia. nia.
Qed.

Lemma arange_samples_nth_explicit (start step : float) (n k : nat) :
  (Z.of_nat n <= int63_bound)%Z ->
  k < n ->
  nth_error (Np.arange_samples start step n) k
  = Some (match k with
          | 0 => start
          | 1 => (start + step)%float
          | _ => (start + PrimFloat.of_uint63 (Uint63.of_Z (Z.of_nat k))
                          * ((start + step) - start))%float
          end).
Proof.
  intros Hn Hk. rewrite arange_samples_nth by exact Hk.
  unfold Np.arange_sample. destruct k as [| [| k]]; try reflexivity.
  rewrite float_of_nat_index by lia. reflexivity.
Qed.

Lemma gradient_samples_explicit (f : list float) :
  2 <= length f ->
  nth_error (Np.gradient_samples f) 0
  = Some ((nth 1 f 0 - nth 0 f 0) / 1)%float /\
  nth_error (Np.gradient_samples f) (length f - 1)
  = Some ((nth (length f - 1) f 0 - nth (length f - 2) f 0) / 1)%float /\
  forall j,
    0 < j < length f - 1 ->
    nth_error (Np.gradient_samples f) j
    = Some ((nth (j + 1) f 0 - nth (j - 1) f 0) / (2 * 1))%float.
Proof.
  intros Hf. unfold Np.gradient_samples. repeat split.
  - rewrite nth_error_map_seq by lia. reflexivity.
  - rewrite nth_error_map_seq by lia. unfold Np.gradient_sample.
    destruct (Nat.eqb_spec (length f - 1) 0) as [H0 | _]; [lia |].
    rewrite Nat.eqb_refl. reflexivity.
  - intros j Hj. rewrite nth_error_map_seq by lia. unfold Np.gradient_sample.
    destruct (Nat.eqb_spec j 0) as [H0 | _]; [lia |].
    destruct (Nat.eqb_spec j (length f - 1)) as [H1 | _]; [lia |].
    reflexivity.
Qed.

(** ** Runs of the evaluation loop *)

Lemma differential_sweep_Return : differential_sweep = Return x_diff_samples.
Proof.
  unfold differential_sweep, Np.arange, x_diff_samples.
  replace (Np.arange_length (-2)%float 30%float 0.1%float) with (Return 320)
    by (vm_compute; reflexivity).
  reflexivity.
Qed.

Lemma x_diff_samples_length : length x_diff_samples = 320.
Proof.
  unfold x_diff_samples, Np.arange_samples.
  rewrite length_map, length_seq. reflexivity.
Qed.

Lemma configure_model_of (experiment : list float) :
  5 <= length experiment ->
  configure material experiment = Return (model_of experiment).
Proof.
  intros H. unfold configure, model_of.
  rewrite !(fun i => subscript_nth experiment i 0%float) by lia.
  reflexivity.
Qed.

Lemma row_at_columns (i : nat) :
  Forall (fun experiment => 5 <= length experiment) exp_setup ->
  i < length exp_setup -> 5 <= length (row_at i).
Proof.
  intros Hrows Hi. rewrite Forall_forall in Hrows.
  apply Hrows. apply nth_In. exact Hi.
Qed.

Section Call.

Hypothesis contract : transmission_contract.
Variable x : list float.
Hypothesis valid : valid_call x.

Local Abbreviation body :=
  (loop_body material exp_setup channels offset
     x x_diff_samples).

(** One iteration, on the locals left by the iterations before it. *)
Lemma loop_body_run (i : nat) (st : locals) :
  i < length exp_setup ->
  body i st =
    let row := summary_row (model_of (row_at i)) in
    let g := derivative_row x_diff_samples (row_at i) in
    if (Z.of_nat i =? Z.of_nat (length exp_setup) - 1)%Z then
      match saturation_bound channels x (overlay_trace x i (row_at i)) with
      | Return v =>
          (Return {| table_rows := table_rows st ++ [row];
                     dydx := dydx st ++ [g];
                     x_min := Some v |}, iteration_log x i)
      | Raise e => (Raise e, iteration_log x i)
      end
    else
      (Return {| table_rows := table_rows st ++ [row];
                 dydx := dydx st ++ [g];
                 x_min := x_min st |}, iteration_log x i).
Proof.
  intros Hi. destruct valid as (Hrows & Hplots & _ & _ & _).
  unfold loop_body.
  rewrite (subscript_nth exp_setup i []) by exact Hi.
  rewrite bind_eval_Return. fold (row_at i).
  rewrite (configure_model_of (row_at i)) by (apply row_at_columns; assumption).
  rewrite bind_eval_Return, bind_call.
  rewrite (as_double_index (length exp_setup) i) by assumption.
  rewrite bind_eval_Return, bind_call.
  fold (overlay_trace x i (row_at i)).
  rewrite gradient_Return
    by (unfold model_of; rewrite contract, x_diff_samples_length; lia).
  fold (derivative_row x_diff_samples (row_at i)).
  cbv zeta.
  destruct (Z.of_nat i =? Z.of_nat (length exp_setup) - 1)%Z.
  - destruct (saturation_bound channels x (overlay_trace x i (row_at i)))
      as [v | e].
    + rewrite !bind_eval_Return, !bind_ret. reflexivity.
    + rewrite bind_eval_Raise, bind_Raise. reflexivity.
  - rewrite bind_ret, bind_eval_Return. reflexivity.
Qed.

Lemma locals_after_S (k : nat) (st : locals) (bound : option float) :
  st = locals_after k None ->
  {| table_rows := table_rows st ++ [summary_row (model_of (row_at k))];
     dydx := dydx st ++ [derivative_row x_diff_samples (row_at k)];
     x_min := bound |}
  = locals_after (S k) bound.
Proof.
  intros ->. unfold locals_after. cbn [table_rows dydx x_min].
  rewrite seq_S, !map_app. reflexivity.
Qed.

Lemma loop_log_S (k : nat) :
  loop_log x (S k) = loop_log x k ++ iteration_log x k.
Proof.
  unfold loop_log. rewrite seq_S, flat_map_app. cbn [flat_map Nat.add].
  rewrite app_nil_r. reflexivity.
Qed.

(** The iterations before the last one. *)
Lemma for_range_inner (k : nat) :
  k < length exp_setup ->
  for_range k body {| table_rows := []; dydx := []; x_min := None |}
  = (Return (locals_after k None), loop_log x k).
Proof.
  induction k as [| k IH]; intros Hk; [reflexivity |].
  rewrite for_range_S, IH by lia. rewrite bind_Return.
  rewrite loop_body_run by lia. cbv zeta.
  destruct (Z.eqb_spec (Z.of_nat k) (Z.of_nat (length exp_setup) - 1))
    as [Heq | _]; [lia |].
  cbn [outcome log fst snd x_min locals_after].
  rewrite (locals_after_S k _ None eq_refl), loop_log_S. reflexivity.
Qed.

(** The whole loop: it returns when the saturation lookup of the last
    iteration does, and raises what the lookup raises. *)
Lemma for_range_run (m : nat) :
  length exp_setup = S m ->
  for_range (S m) body {| table_rows := []; dydx := []; x_min := None |}
  = match saturation_bound channels x (overlay_trace x m (row_at m)) with
    | Return v => (Return (locals_after (S m) (Some v)), loop_log x (S m))
    | Raise e => (Raise e, loop_log x (S m))
    end.
Proof.
  intros Hn. rewrite for_range_S, for_range_inner by lia.
  rewrite bind_Return, loop_body_run by lia. cbv zeta.
  destruct (Z.eqb_spec (Z.of_nat m) (Z.of_nat (length exp_setup) - 1))
    as [_ | Hne]; [| lia].
  rewrite loop_log_S.
  destruct (saturation_bound channels x (overlay_trace x m (row_at m)))
    as [v | e]; cbn [outcome log fst snd]; [| reflexivity].
  rewrite (locals_after_S m _ (Some v) eq_refl). reflexivity.
Qed.

Lemma evaluate_run (m : nat) :
  length exp_setup = S m ->
  evaluate material exp_setup channels offset
  = match saturation_bound channels x (overlay_trace x m (row_at m)) with
    | Return v => (Return (locals_after (S m) (Some v)), loop_log x (S m))
    | Raise e => (Raise e, loop_log x (S m))
    end.
Proof.
  intros Hn. unfold evaluate.
  destruct valid as (_ & _ & _ & _ & ->).
  rewrite bind_eval_Return, differential_sweep_Return, bind_eval_Return.
  rewrite Hn. apply for_range_run. exact Hn.
Qed.

Lemma evaluate_empty :
  exp_setup = [] ->
  evaluate material exp_setup channels offset
  = (Return (locals_after 0 None), []).
Proof.
  intros Hn. unfold evaluate.
  destruct valid as (_ & _ & _ & _ & ->).
  rewrite bind_eval_Return, differential_sweep_Return, bind_eval_Return.
  rewrite Hn. reflexivity.
Qed.

(** ** Runs of the plotter *)

Lemma yticks_Return : yticks channels = Return tick_positions.
Proof.
  destruct valid as (_ & _ & _ & Hticks & _). unfold tick_positions.
  destruct (yticks channels); [reflexivity | contradiction].
Qed.

Lemma diff_plot_run (st : locals) (bound : float) :
  diff_plot (length exp_setup) offset graph_name savefig st bound
  = (Return tt, diff_log st bound).
Proof.
  destruct valid as (_ & Hplots & _). unfold diff_plot, diff_log.
  destruct (1 <? Z.of_nat (length exp_setup))%Z; [| reflexivity].
  rewrite !bind_call.
  rewrite as_double_small by (unfold int63_bound in *; lia).
  rewrite bind_eval_Return, !bind_call. unfold diff_save_log.
  destruct savefig; reflexivity.
Qed.

Lemma plotter_run :
  plotter material exp_setup channels offset
    graph_name fmt savefig
  = match evaluate material exp_setup channels offset with
    | (Return st, l) =>
        match x_min st with
        | Some v =>
            (Return tt,
             init_log ++ l ++ report_log st
             ++ SetXlim Fig (-1) v :: diff_log st v ++ save_log ++ [Show])
        | None =>
            (Raise (UnboundLocalError "x_min"), init_log ++ l ++ report_log st)
        end
    | (Raise e, l) => (Raise e, init_log ++ l)
    end.
Proof.
  unfold plotter. rewrite !bind_call, yticks_Return, bind_eval_Return.
  rewrite !bind_call.
  destruct (evaluate material exp_setup channels offset)
    as [[st | e] l]; [| reflexivity].
  rewrite bind_Return, !bind_call.
  destruct (x_min st) as [v |].
  - rewrite bind_ret, bind_call, diff_plot_run, bind_Return.
    unfold save_log. destruct savefig;
      cbn [outcome log fst snd bind call app];
      rewrite <- ?app_assoc; reflexivity.
  - rewrite bind_throw. reflexivity.
Qed.

Lemma plotter_saturated (m : nat) (v : float) :
  length exp_setup = S m ->
  saturation_bound channels x (overlay_trace x m (row_at m)) = Return v ->
  plotter material exp_setup channels offset
    graph_name fmt savefig
  = (Return tt,
     init_log ++ loop_log x (S m)
     ++ report_log (locals_after (S m) (Some v))
     ++ SetXlim Fig (-1) v
        :: diff_log (locals_after (S m) (Some v)) v ++ save_log ++ [Show]).
Proof.
  intros Hn Hv. rewrite plotter_run, (evaluate_run m Hn), Hv. reflexivity.
Qed.

Lemma plotter_unsaturated (m : nat) (e : exn) :
  length exp_setup = S m ->
  saturation_bound channels x (overlay_trace x m (row_at m)) = Raise e ->
  plotter material exp_setup channels offset
    graph_name fmt savefig
  = (Raise e, init_log ++ loop_log x (S m)).
Proof.
  intros Hn He. rewrite plotter_run, (evaluate_run m Hn), He. reflexivity.
Qed.

Lemma plotter_empty :
  exp_setup = [] ->
  plotter material exp_setup channels offset
    graph_name fmt savefig
  = (Raise (UnboundLocalError "x_min"),
     init_log ++ report_log (locals_after 0 None)).
Proof.
  intros Hn. rewrite plotter_run, (evaluate_empty Hn). reflexivity.
Qed.

(** ** The three ways a call ends *)

Local Abbreviation P :=
  (plotter material exp_setup channels offset
     graph_name fmt savefig).

Local Abbreviation E :=
  (evaluate material exp_setup channels offset).

Lemma channels_small : (Z.abs channels < int63_bound)%Z.
Proof. destruct valid as (_ & _ & Hc & _). lia. Qed.

Lemma overlay_trace_length (i : nat) (experiment : list float) :
  length (overlay_trace x i experiment) = length x.
Proof.
  unfold overlay_trace, model_of, Np.sub_scalar.
  rewrite contract, length_map. reflexivity.
Qed.

Lemma saturation_reached (m k : nat) :
  first_at_least threshold (overlay_trace x m (row_at m)) k ->
  exists xk,
    nth_error x k = Some xk /\
    saturation_bound channels x (overlay_trace x m (row_at m))
    = Return (xk + 1)%float.
Proof.
  intros Hfirst.
  assert (Hk : k < length x).
  { destruct Hfirst as [(v & Hv & _) _].
    rewrite <- (overlay_trace_length m (row_at m)).
    apply nth_error_Some. rewrite Hv. discriminate. }
  exists (nth k x 0%float). split; [apply nth_error_nth'; exact Hk |].
  apply (saturation_bound_first channels x _ k);
    [apply channels_small | exact Hfirst | apply nth_error_nth'; exact Hk].
Qed.

Lemma plotter_cases :
  (exp_setup = [] /\
   P = (Raise (UnboundLocalError "x_min"),
        init_log ++ report_log (locals_after 0 None)))
  \/
  (exists m,
     length exp_setup = S m /\
     none_at_least threshold (overlay_trace x m (row_at m)) /\
     P = (Raise IndexError, init_log ++ loop_log x (S m)))
  \/
  (exists m k xk,
     length exp_setup = S m /\
     first_at_least threshold (overlay_trace x m (row_at m)) k /\
     nth_error x k = Some xk /\
     P = (Return tt,
          init_log ++ loop_log x (S m)
          ++ report_log (locals_after (S m) (Some (xk + 1)%float))
          ++ SetXlim Fig (-1) (xk + 1)%float
             :: diff_log (locals_after (S m) (Some (xk + 1)%float))
                  (xk + 1)%float
             ++ save_log ++ [Show])).
Proof.
  destruct (length exp_setup) as [| m] eqn:Hn.
  - left. apply length_zero_iff_nil in Hn.
    split; [exact Hn | apply plotter_empty; exact Hn].
  - right.
    destruct (where_true_cases threshold (overlay_trace x m (row_at m)))
      as [Hnone | [k Hfirst]].
    + left. exists m. split; [reflexivity |]. split; [exact Hnone |].
      apply plotter_unsaturated; [exact Hn |].
      apply saturation_bound_none; [apply channels_small | exact Hnone].
    + right. destruct (saturation_reached m k Hfirst) as (xk & Hxk & Hv).
      exists m, k, xk. split; [reflexivity |]. split; [exact Hfirst |].
      split; [exact Hxk |].
      apply plotter_saturated; assumption.
Qed.


(** ** What the parts of a log contain *)

Lemma collect_loop_log {A : Type} (pick : event -> option A)
    (g : nat -> list A) (k : nat) :
  (forall i, collect pick (iteration_log x i) = g i) ->
  collect pick (loop_log x k) = flat_map g (seq 0 k).
Proof.
  intros H. unfold loop_log. rewrite collect_flat_map.
  apply flat_map_ext. exact H.
Qed.

Lemma added_rows_loop_log (k : nat) :
  added_rows (loop_log x k)
  = map (fun i => summary_row (model_of (row_at i))) (seq 0 k).
Proof.
  unfold added_rows. rewrite <- flat_map_single.
  apply collect_loop_log. reflexivity.
Qed.

Lemma overlay_plots_loop_log (k : nat) :
  overlay_plots (loop_log x k)
  = map (fun i => (x, overlay_trace x i (row_at i))) (seq 0 k).
Proof.
  unfold overlay_plots. rewrite <- flat_map_single.
  apply collect_loop_log. reflexivity.
Qed.

Lemma saved_files_loop_log (k : nat) : saved_files (loop_log x k) = [].
Proof.
  unfold saved_files.
  rewrite (collect_loop_log pick_save (fun _ => [])) by reflexivity.
  apply flat_map_none.
Qed.


Lemma diff_log_quiet (st : locals) (v : float) :
  added_rows (diff_log st v) = [] /\ overlay_plots (diff_log st v) = [] /\
  existsb sets_overlay_xlim (diff_log st v) = false.
Proof.
  unfold diff_log, diff_save_log.
  destruct (1 <? Z.of_nat (length exp_setup))%Z; destruct savefig;
    repeat split; reflexivity.
Qed.

Lemma save_log_quiet :
  added_rows save_log = [] /\ overlay_plots save_log = [] /\
  contours save_log = [] /\ existsb sets_overlay_xlim save_log = false.
Proof. unfold save_log. destruct savefig; repeat split; reflexivity. Qed.

(** The rows added and the curves plotted are those of the loop,
    however the call ends. *)
Lemma plotter_loop_events :
  added_rows (log P)
  = map (fun i => summary_row (model_of (row_at i)))
        (seq 0 (length exp_setup)) /\
  overlay_plots (log P)
  = map (fun i => (x, overlay_trace x i (row_at i)))
        (seq 0 (length exp_setup)).
Proof.
  destruct plotter_cases
    as [(Hn & ->) | [(m & Hn & _ & ->) | (m & k & xk & Hn & _ & _ & ->)]];
    cbn [log snd].
  - rewrite Hn. split; reflexivity.
  - rewrite Hn. unfold added_rows, overlay_plots. rewrite !collect_app.
    fold (added_rows (loop_log x (S m))).
    fold (overlay_plots (loop_log x (S m))).
    rewrite added_rows_loop_log, overlay_plots_loop_log.
    split; reflexivity.
  - rewrite Hn.
    destruct (diff_log_quiet (locals_after (S m) (Some (xk + 1)%float))
                (xk + 1)%float) as (Hd1 & Hd2 & _).
    destruct save_log_quiet as (Hs1 & Hs2 & _).
    unfold added_rows, overlay_plots in *.
    rewrite !collect_app.
    change (SetXlim Fig (-1) (xk + 1)%float :: ?l)
      with ([SetXlim Fig (-1) (xk + 1)%float] ++ l).
    rewrite !collect_app, Hd1, Hd2, Hs1, Hs2.
    fold (added_rows (loop_log x (S m))).
    fold (overlay_plots (loop_log x (S m))).
    rewrite added_rows_loop_log, overlay_plots_loop_log.
    cbn [collect flat_map init_log report_log pick_row pick_overlay app].
    rewrite !app_nil_r. split; reflexivity.
Qed.

Lemma row_at_nth_error (i : nat) (experiment : list float) :
  nth_error exp_setup i = Some experiment ->
  i < length exp_setup /\ row_at i = experiment.
Proof.
  intros H. split.
  - apply nth_error_Some. rewrite H. discriminate.
  - unfold row_at. apply nth_error_nth. exact H.
Qed.

(** ** The saturation lookup fails *)

(** C1 (as amended): for a batch whose last configuration's overlay
    trace has no sample with conductance >= channels - 0.1, the match
    result of [np.where] is empty and the routine ends with the
    IndexError raised by indexing it with [min[0][0]]; the routine has no
    error of its own for this case. *)
Theorem C1_unsaturated_ends_in_IndexError (m : nat) :
  length exp_setup = S m ->
  none_at_least threshold (overlay_trace x m (row_at m)) ->
  Np.where_true (Np.ge_mask (overlay_trace x m (row_at m)) threshold) = [] /\
  saturation_bound channels x (overlay_trace x m (row_at m))
  = Raise IndexError /\
  outcome P = Raise IndexError.
Proof.
  intros Hn Hnone.
  assert (Hb : saturation_bound channels x (overlay_trace x m (row_at m))
               = Raise IndexError)
    by (apply saturation_bound_none; [apply channels_small | exact Hnone]).
  split; [apply where_true_none; exact Hnone |].
  split; [exact Hb |].
  rewrite (plotter_unsaturated m IndexError Hn Hb). reflexivity.
Qed.

(** C10: when the saturation lookup on the last configuration's overlay
    trace fails, the run ends there, before any [savefig]: the log holds
    no file write, neither of the overlay nor of the contour, whatever
    the save name. *)
Theorem C10_no_file_written_on_failed_lookup (m : nat) :
  length exp_setup = S m ->
  none_at_least threshold (overlay_trace x m (row_at m)) ->
  raised (outcome P) = Some IndexError /\
  saved_files (log P) = [] /\
  log P = init_log ++ loop_log x (S m).
Proof.
  intros Hn Hnone.
  rewrite (plotter_unsaturated m IndexError Hn)
    by (apply saturation_bound_none; [apply channels_small | exact Hnone]).
  cbn [outcome log fst snd raised].
  split; [reflexivity |]. split; [| reflexivity].
  unfold saved_files. rewrite collect_app.
  fold (saved_files (loop_log x (S m))). rewrite saved_files_loop_log.
  reflexivity.
Qed.

(** ** The saturation lookup succeeds *)

(** C3: when the last configuration's overlay trace has a sample with
    conductance >= channels - 0.1 and [k] is the first such position,
    [x_min] is [x[k] + 1], the call returns, and the last event that
    sets the x limits of the overlay is [set_xlim([-1, x_min])]. *)
Theorem C3_xlim_from_first_saturated_sample (m k : nat) :
  length exp_setup = S m ->
  first_at_least threshold (overlay_trace x m (row_at m)) k ->
  exists xk,
    nth_error x k = Some xk /\
    (exists st l, E = (Return st, l) /\ x_min st = Some (xk + 1)%float) /\
    outcome P = Return tt /\
    exists before after,
      log P = before ++ SetXlim Fig (-1) (xk + 1)%float :: after /\
      existsb sets_overlay_xlim after = false.
Proof.
  intros Hn Hfirst.
  destruct (saturation_reached m k Hfirst) as (xk & Hxk & Hv).
  exists xk. split; [exact Hxk |]. split.
  - rewrite (evaluate_run m Hn), Hv.
    eexists. eexists. split; reflexivity.
  - rewrite (plotter_saturated m _ Hn Hv). cbn [outcome log fst snd].
    split; [reflexivity |].
    exists (init_log ++ loop_log x (S m)
            ++ report_log (locals_after (S m) (Some (xk + 1)%float))).
    exists (diff_log (locals_after (S m) (Some (xk + 1)%float)) (xk + 1)%float
            ++ save_log ++ [Show]).
    split; [rewrite <- !app_assoc; reflexivity |].
    rewrite !existsb_app.
    destruct (diff_log_quiet (locals_after (S m) (Some (xk + 1)%float))
                (xk + 1)%float) as (_ & _ & ->).
    destruct save_log_quiet as (_ & _ & _ & ->). reflexivity.
Qed.

(** ** The loop over the configurations *)

(** C4: the curve plotted for the configuration of index [i] is the
    transmission of its model on the display sweep with [i * offset]
    subtracted from every sample, and its abscissa is the display sweep
    itself, without shift; there is one curve per configuration, in the
    order of the batch. *)
Theorem C4_overlay_trace_is_shifted_sweep
    (i : nat) (w ratio V_sd B t : float) (rest : list float) :
  nth_error exp_setup i = Some (w :: ratio :: V_sd :: B :: t :: rest) ->
  nth_error (overlay_plots (log P)) i
  = Some (x,
          total_transmission (Model material w (ratio * w)%float V_sd B t)
            channels
            (map (fun v =>
                    (v - PrimFloat.of_uint63 (Uint63.of_Z (Z.of_nat i))
                         * offset)%float)
               x)) /\
  length (overlay_plots (log P)) = length exp_setup.
Proof.
  intros Hi. destruct (row_at_nth_error i _ Hi) as [Hlt Hrow].
  destruct plotter_loop_events as [_ ->].
  rewrite length_map, length_seq. split; [| reflexivity].
  rewrite nth_error_map_seq by exact Hlt. rewrite Hrow.
  unfold overlay_trace, model_of, Np.sub_scalar. cbn [nth].
  destruct valid as (_ & Hplots & _).
  rewrite float_of_nat_index by lia. reflexivity.
Qed.

(** C9: the row given to the table for the configuration
    [(w, ratio, V_sd, B, t)] is read off the model built with
    [hw_y = ratio * w], and holds, in this order, [hw_x], [hw_y / hw_x],
    the magnetic field, the angle, [E1], [E2], [eVsd], [hw_c] and
    [zeeman(1/2)]; the rows are added in the order of the batch. *)
Theorem C9_summary_row (i : nat) (w ratio V_sd B t : float) (rest : list float) :
  nth_error exp_setup i = Some (w :: ratio :: V_sd :: B :: t :: rest) ->
  nth_error (added_rows (log P)) i
  = Some (let model := Model material w (ratio * w)%float V_sd B t in
          [hw_x model; (hw_y model / hw_x model)%float;
           magnetic_field model; angle model; E1 model; E2 model;
           eVsd model; hw_c model; zeeman model (1 / 2)%float]) /\
  length (added_rows (log P)) = length exp_setup.
Proof.
  intros Hi. destruct (row_at_nth_error i _ Hi) as [Hlt Hrow].
  destruct plotter_loop_events as [-> _].
  rewrite length_map, length_seq. split; [| reflexivity].
  rewrite nth_error_map_seq by exact Hlt. rewrite Hrow. reflexivity.
Qed.

Lemma evaluate_Return_inv (m : nat) (st : locals) (l : list event) :
  length exp_setup = S m ->
  E = (Return st, l) ->
  exists v, st = locals_after (S m) (Some v).
Proof.
  intros Hn. rewrite (evaluate_run m Hn).
  destruct (saturation_bound channels x (overlay_trace x m (row_at m)))
    as [v | e]; [| discriminate].
  intros H. injection H as <- _. exists v. reflexivity.
Qed.

(** C5: for a batch of [n >= 1] configurations the loop returns as soon
    as the saturation lookup has a match, and the list [dydx] it returns
    has [n] rows in the order of the batch.  The row of configuration [i]
    is the numerical gradient of its transmission curve [f] on the
    differential sweep, taken without shift: [f[1] - f[0]] at the first
    sample, [f[319] - f[318]] at the last and [(f[j+1] - f[j-1]) / 2] in
    between, so every row has the 320 samples of that sweep. *)
Theorem C5_derivative_matrix (m : nat) :
  length exp_setup = S m ->
  differential_sweep = Return x_diff_samples /\
  length x_diff_samples = 320 /\
  (forall k,
      k < 320 ->
      nth_error x_diff_samples k
      = Some (match k with
              | 0 => (-2)%float
              | 1 => (-2 + 0.1)%float
              | _ => (-2 + PrimFloat.of_uint63 (Uint63.of_Z (Z.of_nat k))
                           * ((-2 + 0.1) - (-2)))%float
              end)) /\
  (forall k,
      first_at_least threshold (overlay_trace x m (row_at m)) k ->
      succeeds (outcome E)) /\
  (forall st l,
      E = (Return st, l) ->
      length (dydx st) = length exp_setup /\
      (forall i w ratio V_sd B t rest,
          nth_error exp_setup i = Some (w :: ratio :: V_sd :: B :: t :: rest) ->
          exists row f,
            f = total_transmission
                  (Model material w (ratio * w)%float V_sd B t)
                  channels x_diff_samples /\
            nth_error (dydx st) i = Some row /\
            length f = 320 /\ length row = 320 /\
            nth_error row 0 = Some ((nth 1 f 0 - nth 0 f 0) / 1)%float /\
            nth_error row 319
            = Some ((nth 319 f 0 - nth 318 f 0) / 1)%float /\
            forall j,
              0 < j < 319 ->
              nth_error row j
              = Some ((nth (j + 1) f 0 - nth (j - 1) f 0) / (2 * 1))%float) /\
      Forall (fun row => length row = length x_diff_samples) (dydx st)).
Proof.
  intros Hn. split; [apply differential_sweep_Return |].
  split; [apply x_diff_samples_length |].
  split.
  { intros k Hk. apply arange_samples_nth_explicit; [| exact Hk].
    unfold int63_bound. cbn. lia. }
  split.
  - intros k Hfirst.
    destruct (saturation_reached m k Hfirst) as (xk & _ & Hv).
    rewrite (evaluate_run m Hn), Hv. exact I.
  - intros st l Hst.
    destruct (evaluate_Return_inv m st l Hn Hst) as [v ->].
    cbn [dydx locals_after]. rewrite length_map, length_seq.
    split; [symmetry; exact Hn |]. split.
    + intros i w ratio V_sd B t rest Hi.
      destruct (row_at_nth_error i _ Hi) as [Hlt Hrow].
      set (f := total_transmission
                  (Model material w (ratio * w)%float V_sd B t)
                  channels x_diff_samples).
      assert (Hf : length f = 320)
        by (unfold f; rewrite contract; apply x_diff_samples_length).
      exists (Np.gradient_samples f), f.
      split; [reflexivity |].
      split.
      { rewrite nth_error_map_seq by lia. rewrite Hrow. reflexivity. }
      split; [exact Hf |].
      split; [rewrite gradient_samples_length; exact Hf |].
      destruct (gradient_samples_explicit f) as (H0 & Hlast & Hmid); [lia |].
      rewrite Hf in Hlast, Hmid.
      split; [exact H0 |]. split; [exact Hlast | exact Hmid].
    + apply Forall_forall. intros row Hrow.
      apply in_map_iff in Hrow. destruct Hrow as (i & <- & _).
      unfold derivative_row, model_of.
      rewrite gradient_samples_length, contract. reflexivity.
Qed.

(** ** Figures and files *)




(** ** The empty batch *)

(** C7 (as amended): for a batch of size 0 the routine makes no check of
    the size: the loop body never runs, the overlay figure is set up,
    the empty table and the note are printed, and the call then ends
    with the UnboundLocalError of reading [x_min], which no iteration
    has bound; nothing is plotted, shown or saved. *)
Theorem C7_empty_batch_ends_in_UnboundLocalError :
  exp_setup = [] ->
  E = (Return {| table_rows := []; dydx := []; x_min := None |}, []) /\
  P = (Raise (UnboundLocalError "x_min"),
       init_log ++ [PrintTable field_names []; Print angle_note]).
Proof.
  intros Hn. split.
  - rewrite (evaluate_empty Hn). reflexivity.
  - rewrite (plotter_empty Hn). reflexivity.
Qed.

(** ** The sweeps *)

(** C2: the display sweep is [np.arange(-2, offset * plots + channels *
    6, 0.1)] as numpy builds it in binary64: the number of samples is the
    ceiling of the quotient [(stop + 2) / 0.1], a positive quotient being
    [m * 2 ^ e], sample 0 is -2, sample 1 is [-2 + 0.1] and sample [k] is
    [-2 + k * ((-2 + 0.1) - (-2))]; every curve of the overlay is plotted
    against it.  The differential sweep is [np.arange(-2, 30, 0.1)]: 320
    samples of the same sequence, all in [-2, 30), whatever the batch and
    the offset.  The display sweep has no such bound: its last sample can
    pass the stop value. *)
Theorem C2_sweep_construction :
  match
    Prim2SF
      (((offset * PrimFloat.of_uint63 (Uint63.of_Z (Z.of_nat (length exp_setup)))
         + (if (channels * 6 <? 0)%Z
            then - PrimFloat.of_uint63 (Uint63.of_Z (- (channels * 6)))
            else PrimFloat.of_uint63 (Uint63.of_Z (channels * 6))))
        - (-2)) / 0.1)%float
  with
  | S754_finite false m e =>
      if (0 <=? e)%Z
      then (Z.of_nat (length x) = Z.pos m * 2 ^ e)%Z
      else ((Z.of_nat (length x) - 1) * 2 ^ (- e) < Z.pos m
            <= Z.of_nat (length x) * 2 ^ (- e))%Z
  | S754_finite true _ _ | S754_zero _ => length x = 0
  | S754_nan | S754_infinity _ => False
  end /\
  (forall k,
      k < length x ->
      nth_error x k
      = Some (match k with
              | 0 => (-2)%float
              | 1 => (-2 + 0.1)%float
              | _ => (-2 + PrimFloat.of_uint63 (Uint63.of_Z (Z.of_nat k))
                           * ((-2 + 0.1) - (-2)))%float
              end)) /\
  Forall (fun curve => fst curve = x) (overlay_plots (log P)) /\
  differential_sweep = Return x_diff_samples /\
  length x_diff_samples = 320 /\
  (forall k,
      k < 320 ->
      nth_error x_diff_samples k
      = Some (match k with
              | 0 => (-2)%float
              | 1 => (-2 + 0.1)%float
              | _ => (-2 + PrimFloat.of_uint63 (Uint63.of_Z (Z.of_nat k))
                           * ((-2 + 0.1) - (-2)))%float
              end)) /\
  forallb (fun v => (-2 <=? v)%float && (v <? 30)%float) x_diff_samples = true.
Proof.
  destruct valid as (_ & Hplots & Hc & _ & Hsweep).
  unfold display_sweep in Hsweep.
  rewrite !as_double_small in Hsweep by lia.
  rewrite float_of_nat_index in Hsweep by lia.
  rewrite float_of_small_int in Hsweep by lia.
  destruct (arange_Return _ _ _ _ Hsweep) as [Hlen Hsamples].
  split; [exact (arange_length_ceiling _ _ _ _ Hlen) |].
  split.
  { intros k Hk. rewrite Hsamples.
    apply arange_samples_nth_explicit; [| exact Hk].
    exact (arange_length_bound _ _ _ _ Hlen). }
  split.
  { destruct plotter_loop_events as [_ ->].
    apply Forall_forall. intros curve Hcurve.
    apply in_map_iff in Hcurve. destruct Hcurve as (i & <- & _).
    reflexivity. }
  split; [apply differential_sweep_Return |].
  split; [apply x_diff_samples_length |].
  split.
  { intros k Hk. apply arange_samples_nth_explicit; [| exact Hk].
    unfold int63_bound. cbn. lia. }
  vm_compute. reflexivity.
Qed.

(** ** The contour axes *)

(** X7: when the call returns for a batch of more than one configuration,
    the x limits of the contour axes are set once, to
    [[0, (x_min - (plots - 3) * offset) * 10]] with [x_min] the bound of the
    overlay; for a batch of one configuration they are not set. *)
Theorem contour_xlim_of_a_returning_call (m k : nat) :
  length exp_setup = S m ->
  first_at_least threshold (overlay_trace x m (row_at m)) k ->
  exists xk,
    nth_error x k = Some xk /\
    contour_xlims (log P)
    = match m with
      | 0 => []
      | S _ =>
          [(0%Z,
            ((xk + 1 - float_of_int (Z.of_nat (length exp_setup) - 3) * offset)
             * 10)%float)]
      end.
Proof.
  intros Hn Hfirst.
  destruct (saturation_reached m k Hfirst) as (xk & Hxk & Hv).
  exists xk. split; [exact Hxk |].
  rewrite (plotter_saturated m _ Hn Hv). cbn [log snd].
  change (SetXlim Fig (-1) (xk + 1)%float :: ?l)
    with ([SetXlim Fig (-1) (xk + 1)%float] ++ l).
  unfold contour_xlims. rewrite !collect_app.
  rewrite (collect_loop_log pick_contour_xlim (fun _ => [])) by reflexivity.
  rewrite flat_map_none.
  cbn [collect flat_map init_log report_log pick_contour_xlim app].
  unfold diff_log, diff_save_log, save_log. rewrite Hn.
  destruct (Z.ltb_spec 1 (Z.of_nat (S m))) as [Hlt | Hge];
    destruct m as [| m']; try lia; destruct savefig; reflexivity.
Qed.

End Call.

(** ** Calls in general *)

Local Abbreviation P :=
  (plotter material exp_setup channels offset graph_name fmt savefig).

Local Abbreviation E := (evaluate material exp_setup channels offset).

Lemma bind_Return_inv {A B : Type} (m : run A) (k : A -> run B)
    (b : B) (l : list event) :
  bind m k = (Return b, l) ->
  exists a l1 l2, m = (Return a, l1) /\ k a = (Return b, l2) /\ l = l1 ++ l2.
Proof.
  destruct m as [[a | e] l1]; cbn [bind]; [| discriminate].
  destruct (k a) as [r l2] eqn:Hk. intros H. injection H as -> <-.
  exists a, l1, l2. repeat split. exact Hk.
Qed.

Lemma bind_log_Forall {A B : Type} (Q : event -> Prop) (m : run A)
    (k : A -> run B) :
  Forall Q (log m) ->
  (forall a, Forall Q (log (k a))) ->
  Forall Q (log (bind m k)).
Proof.
  intros Hm Hk. destruct m as [[a | e] l]; [| exact Hm].
  rewrite bind_Return. cbn [log snd]. apply Forall_app. split;
    [exact Hm | apply Hk].
Qed.

Lemma for_each_log_Forall {St : Type} (Q : event -> Prop)
    (step : nat -> St -> run St) (l : list nat) :
  (forall i st, Forall Q (log (step i st))) ->
  forall st, Forall Q (log (for_each step l st)).
Proof.
  intros Hstep. induction l as [| i l IH]; intros st; cbn [for_each].
  - apply Forall_nil.
  - apply bind_log_Forall; [apply Hstep | exact IH].
Qed.

Lemma eval_log_Forall {A : Type} (Q : event -> Prop) (r : result A) :
  Forall Q (log (eval r)).
Proof. apply Forall_nil. Qed.

Lemma call_log_Forall (Q : event -> Prop) (ev : event) :
  Q ev -> Forall Q (log (call ev)).
Proof. intros H. apply Forall_cons; [exact H | apply Forall_nil]. Qed.

(** Whatever its arguments and however it ends, an iteration logs only
    events of the loop. *)
Lemma loop_body_log (x x_diff : list float) (i : nat) (st : locals) :
  Forall loop_event
    (log (loop_body material exp_setup channels offset x x_diff i st)).
Proof.
  unfold loop_body.
  apply bind_log_Forall; [apply eval_log_Forall | intros experiment].
  apply bind_log_Forall; [apply eval_log_Forall | intros model].
  apply bind_log_Forall; [apply call_log_Forall; reflexivity | intros _].
  apply bind_log_Forall; [apply eval_log_Forall | intros fi].
  apply bind_log_Forall; [apply call_log_Forall; exact I | intros _].
  apply bind_log_Forall.
  - destruct (Z.of_nat i =? Z.of_nat (length exp_setup) - 1)%Z;
      [| apply Forall_nil].
    apply bind_log_Forall; [apply eval_log_Forall | intros v].
    apply Forall_nil.
  - intros bound. apply bind_log_Forall; [apply eval_log_Forall | intros g].
    apply Forall_nil.
Qed.

Lemma evaluate_log : Forall loop_event (log E).
Proof.
  unfold evaluate.
  apply bind_log_Forall; [apply eval_log_Forall | intros x].
  apply bind_log_Forall; [apply eval_log_Forall | intros x_diff].
  apply for_each_log_Forall. intros i st. apply loop_body_log.
Qed.

Lemma loop_events_collect {A : Type} (pick : event -> option A)
    (l : list event) :
  (forall ev, loop_event ev -> pick ev = None) ->
  Forall loop_event l -> collect pick l = [].
Proof.
  intros Hpick Hl. induction Hl as [| ev l Hev _ IH]; [reflexivity |].
  cbn [collect flat_map]. rewrite (Hpick ev Hev). exact IH.
Qed.

Lemma loop_events_no_show (l : list event) :
  Forall loop_event l -> filter is_show l = [].
Proof.
  intros Hl. induction Hl as [| ev l Hev _ IH]; [reflexivity |].
  cbn [filter]. destruct ev; try contradiction; exact IH.
Qed.

Lemma loop_events_rows (l : list event) :
  Forall loop_event l ->
  Forall (fun row => length row = length field_names) (added_rows l).
Proof.
  intros Hl. induction Hl as [| ev l Hev _ IH]; [apply Forall_nil |].
  destruct ev; try contradiction; try exact IH.
  apply Forall_cons; [exact Hev | exact IH].
Qed.

Lemma diff_plot_cases (st : locals) (v : float) :
  diff_plot (length exp_setup) offset graph_name savefig st v
  = if (1 <? Z.of_nat (length exp_setup))%Z then
      match as_double (Z.of_nat (length exp_setup) - 3) with
      | Raise e =>
          (Raise e,
           [Subplots Fig1;
            Suptitle Fig1 ("Diff Conductance " ++ graph_name)%string;
            SetXlabel Fig1 "$ 10 \times E_{f}$"; SetYlabel Fig1 "Experiments"])
      | Return p3 =>
          (Return tt,
           [Subplots Fig1;
            Suptitle Fig1 ("Diff Conductance " ++ graph_name)%string;
            SetXlabel Fig1 "$ 10 \times E_{f}$"; SetYlabel Fig1 "Experiments";
            SetXlim Fig1 0 ((v - p3 * offset) * 10)%float;
            Contourf Fig1 (dydx st); Colorbar Fig1] ++ diff_save_log)
      end
    else (Return tt, []).
Proof.
  unfold diff_plot, diff_save_log.
  destruct (1 <? Z.of_nat (length exp_setup))%Z; [| reflexivity].
  rewrite !bind_call.
  destruct (as_double (Z.of_nat (length exp_setup) - 3)) as [p3 | e].
  - rewrite bind_eval_Return, !bind_call. destruct savefig; reflexivity.
  - rewrite bind_eval_Raise. reflexivity.
Qed.

(** The shape of every call. *)
Lemma plotter_general :
  P = match yticks channels with
      | Raise e => (Raise e, axes_log)
      | Return ticks =>
          match E with
          | (Raise e, l) =>
              (Raise e, axes_log ++ [SetYticks Fig ticks; Grid] ++ l)
          | (Return st, l) =>
              match x_min st with
              | None =>
                  (Raise (UnboundLocalError "x_min"),
                   axes_log ++ [SetYticks Fig ticks; Grid] ++ l ++ report_log st)
              | Some v =>
                  match diff_plot (length exp_setup) offset graph_name
                          savefig st v with
                  | (Raise e, l2) =>
                      (Raise e,
                       axes_log ++ [SetYticks Fig ticks; Grid] ++ l
                       ++ report_log st ++ SetXlim Fig (-1) v :: l2)
                  | (Return _, l2) =>
                      (Return tt,
                       axes_log ++ [SetYticks Fig ticks; Grid] ++ l
                       ++ report_log st ++ SetXlim Fig (-1) v :: l2
                       ++ save_log ++ [Show])
                  end
              end
          end
      end.
Proof.
  unfold plotter. rewrite !bind_call.
  destruct (yticks channels) as [ticks | e];
    [rewrite bind_eval_Return | rewrite bind_eval_Raise; reflexivity].
  rewrite !bind_call.
  destruct E as [[st | e] l]; [| reflexivity].
  rewrite bind_Return, !bind_call.
  destruct (x_min st) as [v |]; [| rewrite bind_throw; reflexivity].
  rewrite bind_ret, bind_call.
  destruct (diff_plot (length exp_setup) offset graph_name savefig st v)
    as [[[] | e] l2]; [| reflexivity].
  rewrite bind_Return. unfold save_log.
  destruct savefig; cbn [outcome log fst snd bind call app];
    rewrite <- ?app_assoc; reflexivity.
Qed.

(** ** The loop in general *)

Lemma loop_body_Return_inv (x x_diff : list float) (i : nat)
    (st st' : locals) (l : list event) :
  loop_body material exp_setup channels offset x x_diff i st = (Return st', l) ->
  exists model y g,
    l = [AddRow (summary_row model); Plot Fig x y] /\
    table_rows st' = table_rows st ++ [summary_row model] /\
    dydx st' = dydx st ++ [g] /\
    if (Z.of_nat i =? Z.of_nat (length exp_setup) - 1)%Z
    then exists v, x_min st' = Some v
    else x_min st' = x_min st.
Proof.
  unfold loop_body.
  destruct (subscript exp_setup i) as [experiment | e];
    [rewrite bind_eval_Return | rewrite bind_eval_Raise; discriminate].
  destruct (configure material experiment) as [model | e];
    [rewrite bind_eval_Return | rewrite bind_eval_Raise; discriminate].
  rewrite bind_call.
  destruct (as_double (Z.of_nat i)) as [fi | e];
    [rewrite bind_eval_Return | rewrite bind_eval_Raise; discriminate].
  rewrite bind_call.
  destruct (Z.of_nat i =? Z.of_nat (length exp_setup) - 1)%Z.
  - destruct (saturation_bound channels x _) as [v | e];
      [rewrite bind_eval_Return, bind_ret
      | rewrite bind_eval_Raise, bind_Raise; discriminate].
    destruct (Np.gradient _) as [g | e];
      [rewrite bind_eval_Return | rewrite bind_eval_Raise; discriminate].
    cbn [ret outcome log fst snd]. intros H. injection H as <- <-.
    eexists. eexists. exists g. cbn [table_rows dydx x_min].
    repeat split. exists v. reflexivity.
  - rewrite bind_ret.
    destruct (Np.gradient _) as [g | e];
      [rewrite bind_eval_Return | rewrite bind_eval_Raise; discriminate].
    cbn [ret outcome log fst snd]. intros H. injection H as <- <-.
    eexists. eexists. exists g. cbn [table_rows dydx x_min].
    repeat split.
Qed.

Lemma for_range_invariant {St : Type} (Inv : nat -> St -> list event -> Prop)
    (step : nat -> St -> run St) (n : nat) (st0 : St) :
  Inv 0 st0 [] ->
  (forall i st l st' l',
      i < n -> Inv i st l -> step i st = (Return st', l') ->
      Inv (S i) st' (l ++ l')) ->
  forall k st l,
    k <= n -> for_range k step st0 = (Return st, l) -> Inv k st l.
Proof.
  intros H0 Hstep. induction k as [| k IH]; intros st l Hk Hrun.
  - injection Hrun as <- <-. exact H0.
  - rewrite for_range_S in Hrun.
    destruct (bind_Return_inv _ _ _ _ Hrun) as (st1 & l1 & l2 & H1 & H2 & ->).
    apply (Hstep k st1 l1 st l2); [lia | apply IH; [lia | exact H1] | exact H2].
Qed.

Lemma evaluate_Return_invariant (st : locals) (l : list event) :
  E = (Return st, l) -> loop_invariant (length exp_setup) st l.
Proof.
  unfold evaluate.
  destruct (display_sweep (length exp_setup) offset channels) as [x | e];
    [rewrite bind_eval_Return | rewrite bind_eval_Raise; discriminate].
  destruct differential_sweep as [x_diff | e];
    [rewrite bind_eval_Return | rewrite bind_eval_Raise; discriminate].
  apply (for_range_invariant loop_invariant) with (n := length exp_setup);
    [| | lia].
  - unfold loop_invariant. cbn. repeat split; try reflexivity; lia.
  - intros i st1 l1 st2 l2 Hi (Hrows & Hd & Hadded & Hplots & Hnone & Hsome) Hrun.
    destruct (loop_body_Return_inv _ _ _ _ _ _ Hrun)
      as (model & y & g & -> & Ht & Hg & Hx).
    unfold loop_invariant, added_rows, overlay_plots in *.
    rewrite Ht, Hg, !collect_app, !length_app, Hadded, Hrows, Hd, Hplots.
    cbn [collect flat_map pick_row pick_overlay app length].
    repeat split; try lia.
    + intros [H | H]; [lia |].
      destruct (Z.eqb_spec (Z.of_nat i) (Z.of_nat (length exp_setup) - 1))
        as [Heq | _]; [lia |].
      rewrite Hx. apply Hnone. right. exact Hi.
    + intros _ Hn.
      destruct (Z.eqb_spec (Z.of_nat i) (Z.of_nat (length exp_setup) - 1))
        as [_ | Hne]; [| lia].
      destruct Hx as [v ->]. discriminate.
Qed.

Ltac call_cases Hl :=
  rewrite plotter_general;
  pose proof evaluate_log as Hl;
  destruct (yticks channels) as [ticks | ey];
    [destruct (evaluate material exp_setup channels offset) as [[st | ee] l];
       [destruct (x_min st) as [v |];
          [rewrite diff_plot_cases;
           destruct (1 <? Z.of_nat (length exp_setup))%Z;
             [destruct (as_double (Z.of_nat (length exp_setup) - 3))
                as [p3 | ed]
             |]
          |]
       |]
    |];
  cbn [outcome log fst snd] in *.

(** X8: whatever the arguments, [plt.show()] is called when the call
    returns, once and as its last action, and is not called by a call that
    ends with an exception. *)
Theorem show_exactly_when_the_call_returns :
  match outcome P with
  | Return _ =>
      filter is_show (log P) = [Show] /\ exists l, log P = l ++ [Show]
  | Raise _ => filter is_show (log P) = []
  end.
Proof.
  call_cases Hl; unfold diff_save_log, save_log; destruct savefig;
    try split; rewrite ?filter_app, ?(loop_events_no_show _ Hl);
    try reflexivity;
    eexists; rewrite ?app_comm_cons, ?app_assoc; reflexivity.
Qed.

(** X10: whatever the arguments, every row given to the table has nine
    entries, one per field name. *)
Theorem table_rows_match_the_field_names :
  length field_names = 9 /\
  Forall (fun row => length row = 9) (added_rows (log P)).
Proof.
  split; [reflexivity |].
  change 9 with (length field_names).
  call_cases Hl; unfold diff_save_log, save_log; try destruct savefig;
    unfold added_rows; rewrite ?collect_app;
    repeat (apply Forall_app; split);
    first [ apply loop_events_rows; exact Hl | exact (Forall_nil _) ].
Qed.

(** X11: whatever the model and the arguments, when the loop returns it has
    kept one table row, one derivative row and one plotted curve per
    configuration, the rows kept for the table are the rows given to it, in
    order, and [x_min] is unbound exactly for the empty batch. *)
Theorem loop_returns_with_one_entry_per_configuration
    (st : locals) (l : list event) :
  E = (Return st, l) ->
  length (table_rows st) = length exp_setup /\
  length (dydx st) = length exp_setup /\
  added_rows l = table_rows st /\
  length (overlay_plots l) = length exp_setup /\
  (x_min st = None <-> exp_setup = []).
Proof.
  intros Hrun.
  destruct (evaluate_Return_invariant st l Hrun)
    as (Hrows & Hd & Hadded & Hplots & Hnone & Hsome).
  repeat split; try assumption.
  - intros Hx. destruct exp_setup as [| r rest]; [reflexivity |].
    exfalso. apply Hsome; [cbn; lia | reflexivity | exact Hx].
  - intros Hn. apply Hnone. left. rewrite Hn. reflexivity.
Qed.

(** X12: once the tick positions are set, the table is printed exactly when
    the loop returns, once, under the nine field names and with the rows
    given to it, in order; a call whose loop ends with an exception prints
    no table, although it has filled one. *)
Theorem table_printed_when_the_loop_returns (ticks : list float) :
  yticks channels = Return ticks ->
  printed_tables (log P)
  = match E with
    | (Return st, l) => [(field_names, added_rows l)]
    | (Raise _, _) => []
    end.
Proof.
  intros Hticks.
  assert (Hloop : forall l, Forall loop_event l -> collect pick_table l = []).
  { intros l. apply loop_events_collect. intros [] H; try contradiction;
      reflexivity. }
  rewrite plotter_general, Hticks.
  pose proof evaluate_log as Hl.
  destruct E as [[st | e] l] eqn:Hrun; cbn [log snd] in Hl.
  - destruct (evaluate_Return_invariant st l Hrun) as (_ & _ & -> & _).
    destruct (x_min st) as [v |].
    + rewrite diff_plot_cases.
      destruct (1 <? Z.of_nat (length exp_setup))%Z;
        [destruct (as_double (Z.of_nat (length exp_setup) - 3)) |];
        cbn [log snd]; unfold diff_save_log, save_log; destruct savefig;
        unfold printed_tables; rewrite ?collect_app, ?(Hloop _ Hl);
        reflexivity.
    + cbn [log snd]. unfold printed_tables.
      rewrite ?collect_app, ?(Hloop _ Hl). reflexivity.
  - cbn [log snd]. unfold printed_tables.
    rewrite ?collect_app, ?(Hloop _ Hl). reflexivity.
Qed.

(** ** A row without its five columns *)

Lemma configure_short_row (experiment : list float) :
  length experiment < 5 -> configure material experiment = Raise IndexError.
Proof.
  intros H.
  destruct experiment as [| a [| b [| c [| d [| f experiment]]]]];
    cbn [length] in H; try lia; reflexivity.
Qed.

Lemma loop_body_short_row (x x_diff : list float) (i : nat) (st : locals) :
  i < length exp_setup ->
  length (row_at i) < 5 ->
  loop_body material exp_setup channels offset x x_diff i st
  = (Raise IndexError, []).
Proof.
  intros Hi Hshort. unfold loop_body.
  rewrite (subscript_nth exp_setup i []) by exact Hi.
  rewrite bind_eval_Return. fold (row_at i).
  rewrite (configure_short_row (row_at i) Hshort). reflexivity.
Qed.

Lemma loop_body_full_row (x : list float) (i : nat) (st : locals) :
  transmission_contract ->
  (Z.of_nat (length exp_setup) < int63_bound)%Z ->
  i < length exp_setup ->
  Z.of_nat i <> (Z.of_nat (length exp_setup) - 1)%Z ->
  5 <= length (row_at i) ->
  loop_body material exp_setup channels offset x x_diff_samples i st
  = (Return {| table_rows := table_rows st ++ [summary_row (model_of (row_at i))];
               dydx := dydx st ++ [derivative_row x_diff_samples (row_at i)];
               x_min := x_min st |},
     iteration_log x i).
Proof.
  intros contract Hplots Hi Hlast Hcols. unfold loop_body.
  rewrite (subscript_nth exp_setup i []) by exact Hi.
  rewrite bind_eval_Return. fold (row_at i).
  rewrite (configure_model_of (row_at i) Hcols).
  rewrite bind_eval_Return, bind_call.
  rewrite (as_double_index (length exp_setup) i) by assumption.
  rewrite bind_eval_Return, bind_call.
  fold (overlay_trace x i (row_at i)).
  rewrite gradient_Return
    by (unfold model_of; rewrite contract, x_diff_samples_length; lia).
  fold (derivative_row x_diff_samples (row_at i)).
  destruct (Z.eqb_spec (Z.of_nat i) (Z.of_nat (length exp_setup) - 1))
    as [Heq | _]; [contradiction |].
  rewrite bind_ret, bind_eval_Return. reflexivity.
Qed.

Lemma for_range_full_rows (x : list float) (i : nat) :
  transmission_contract ->
  (Z.of_nat (length exp_setup) < int63_bound)%Z ->
  i < length exp_setup ->
  (forall j, j < i -> 5 <= length (row_at j)) ->
  forall k,
    k <= i ->
    for_range k (loop_body material exp_setup channels offset x x_diff_samples)
      {| table_rows := []; dydx := []; x_min := None |}
    = (Return (locals_after k None), loop_log x k).
Proof.
  intros contract Hplots Hi Hrows. induction k as [| k IH]; intros Hk;
    [reflexivity |].
  rewrite for_range_S, IH by lia. rewrite bind_Return.
  rewrite loop_body_full_row; try assumption; try lia; [| apply Hrows; lia].
  cbn [outcome log fst snd x_min locals_after].
  rewrite (locals_after_S k _ None eq_refl), loop_log_S. reflexivity.
Qed.

(** X15: when the row of index [i] is the first of the batch with fewer
    than five columns, the call ends with the IndexError of reading the
    row, after it has given the table a row and plotted a curve for each of
    the [i] configurations before it; it prints, shows and saves nothing. *)
Theorem short_row_ends_the_call (x ticks : list float) (i : nat) :
  transmission_contract ->
  (Z.of_nat (length exp_setup) < int63_bound)%Z ->
  yticks channels = Return ticks ->
  display_sweep (length exp_setup) offset channels = Return x ->
  i < length exp_setup ->
  (forall j, j < i -> 5 <= length (row_at j)) ->
  length (row_at i) < 5 ->
  E = (Raise IndexError, loop_log x i) /\
  P = (Raise IndexError,
       axes_log ++ [SetYticks Fig ticks; Grid] ++ loop_log x i).
Proof.
  intros contract Hplots Hticks Hsweep Hi Hrows Hshort.
  assert (Hrun : E = (Raise IndexError, loop_log x i)).
  { unfold evaluate. rewrite Hsweep, bind_eval_Return.
    rewrite differential_sweep_Return, bind_eval_Return.
    unfold for_range.
    replace (length exp_setup) with (i + S (length exp_setup - S i)) at 1
      by lia.
    rewrite seq_app, for_each_app. cbn [Nat.add].
    fold (for_range i
            (loop_body material exp_setup channels offset x x_diff_samples)
            {| table_rows := []; dydx := []; x_min := None |}).
    rewrite (for_range_full_rows x i contract Hplots Hi Hrows i (le_n i)).
    rewrite bind_Return. cbn [seq for_each].
    rewrite (loop_body_short_row x x_diff_samples i _ Hi Hshort).
    rewrite bind_Raise. cbn [outcome log fst snd]. rewrite app_nil_r.
    reflexivity. }
  split; [exact Hrun |].
  rewrite plotter_general, Hticks, Hrun. reflexivity.
Qed.

End Plotter.

Local Close Scope float_scope.

(** ** read_setup *)

(** C8: a setup file with exactly one data row (of the five columns of a
    configuration; two columns are enough) is read as a two-dimensional
    array with that one row, a batch of size 1, and not as the bare row. *)
Theorem C8_single_row_is_a_batch (row : list float) :
  2 <= length row ->
  read_setup [row] = Return (Array2 [row]) /\
  (forall setup, read_setup [row] = Return setup -> ndim setup = 2).
Proof.
  intros H.
  assert (Hr : read_setup [row] = Return (Array2 [row])).
  { destruct row as [| a [| b row]]; cbn [length] in H; try lia. reflexivity. }
  split; [exact Hr |].
  intros setup Hs. rewrite Hr in Hs. injection Hs as <-. reflexivity.
Qed.

(** X1: whatever the file holds, [read_setup] does not return a bare row:
    the array it returns has dimension 2, except for a file that holds a
    single number, which comes back as an array of dimension 0. *)
Theorem read_setup_never_a_bare_row (data : list (list float)) (setup : ndarray) :
  read_setup data = Return setup ->
  ndim setup <> 1 /\ (ndim setup = 0 <-> exists v, data = [[v]]).
Proof.
  unfold read_setup, genfromtxt. destruct (rectangular data); [| discriminate].
  destruct data as [| r [| r' data]]; cbn [squeeze].
  - intros H. injection H as <-. cbn. split; [lia |].
    split; [lia | intros [v Hv]; discriminate].
  - destruct r as [| v [| w r]]; intros H; injection H as <-; cbn;
      (split; [lia |]); split; try lia; try (intros [u Hu]; discriminate).
    intros _. exists v. reflexivity.
  - destruct (forallb (fun r0 => length r0 =? 1) (r :: r' :: data));
      intros H; injection H as <-; cbn;
      (split; [lia |]); (split; [lia | intros [u Hu]; discriminate]).
Qed.

(** X2: a table of at least two rows of at least two columns each is
    returned as it is: one configuration per data row, in the order of the
    file. *)
Theorem read_setup_keeps_a_table (r1 r2 : list float) (rest : list (list float)) :
  rectangular (r1 :: r2 :: rest) = true ->
  2 <= length r1 ->
  read_setup (r1 :: r2 :: rest) = Return (Array2 (r1 :: r2 :: rest)).
Proof.
  intros Hrect Hcols. unfold read_setup, genfromtxt. rewrite Hrect.
  cbn [squeeze forallb].
  destruct (Nat.eqb_spec (length r1) 1) as [H1 | _]; [lia |].
  reflexivity.
Qed.

(** X3: a file of one column and at least two rows is read as a single
    configuration whose entries are the values of the column: the rows of
    the file become the columns of the one row of the batch. *)
Theorem read_setup_turns_a_column_into_a_row (column : list float) :
  2 <= length column ->
  read_setup (map (fun v => [v]) column) = Return (Array2 [column]).
Proof.
  intros Hlen. destruct column as [| v [| w column]]; cbn [length] in Hlen;
    try lia.
  assert (Hone : forall l : list float,
             forallb (fun r => length r =? 1) (map (fun u => [u]) l) = true).
  { induction l as [| u l IH]; [reflexivity | exact IH]. }
  assert (Hhd : forall l : list float,
             map (fun r => hd 0%float r) (map (fun u => [u]) l) = l).
  { intros l. rewrite map_map. cbn [hd]. apply map_id. }
  unfold read_setup, genfromtxt.
  replace (rectangular (map (fun u => [u]) (v :: w :: column))) with true
    by (symmetry; exact (Hone (w :: column))).
  change (squeeze (map (fun u => [u]) (v :: w :: column)))
    with (if forallb (fun r => length r =? 1)
               (map (fun u => [u]) (v :: w :: column))
          then Array1 (map (fun r => hd 0%float r)
                         (map (fun u => [u]) (v :: w :: column)))
          else Array2 (map (fun u => [u]) (v :: w :: column))).
  rewrite Hone, Hhd. reflexivity.
Qed.

(** * Concrete runs *)

Lemma first_at_least_check (t : float) (y : list float) (k : nat) :
  match nth_error y k with Some v => (t <=? v)%float | None => false end = true ->
  forallb (fun u => negb (t <=? u)%float) (firstn k y) = true ->
  first_at_least t y k.
Proof.
  intros Hk Hbefore. split.
  - destruct (nth_error y k) as [v |]; [| discriminate]. exists v. split;
      [reflexivity | exact Hk].
  - intros j u Hj Hu. rewrite forallb_forall in Hbefore.
    assert (Hin : In u (firstn k y)).
    { apply (nth_error_In _ j). rewrite nth_error_firstn.
      destruct (Nat.ltb_spec j k); [exact Hu | lia]. }
    specialize (Hbefore u Hin).
    destruct (t <=? u)%float; [discriminate | reflexivity].
Qed.

Module Scenario.

Local Open Scope float_scope.

Lemma contract : transmission_contract Demo.Material Demo.Model.
Proof.
  intros material a b c d e channels energy. cbn. apply length_map.
Qed.

Lemma valid_two_rows : valid_call Demo.two_rows 3 5 Demo.x_two_rows.
Proof.
  unfold valid_call.
  split; [repeat (apply Forall_cons; [cbn; lia |]); apply Forall_nil |].
  split; [vm_compute; reflexivity |].
  split; [vm_compute; reflexivity |].
  split; [vm_compute; exact I |].
  vm_compute. reflexivity.
Qed.

Lemma valid_wide_row : valid_call Demo.wide_row 1 5 Demo.x_wide_row.
Proof.
  unfold valid_call.
  split; [repeat (apply Forall_cons; [cbn; lia |]); apply Forall_nil |].
  split; [vm_compute; reflexivity |].
  split; [vm_compute; reflexivity |].
  split; [vm_compute; exact I |].
  vm_compute. reflexivity.
Qed.

Lemma valid_empty : valid_call [] 1 5 Demo.x_empty.
Proof.
  unfold valid_call.
  split; [apply Forall_nil |].
  split; [vm_compute; reflexivity |].
  split; [vm_compute; reflexivity |].
  split; [vm_compute; exact I |].
  vm_compute. reflexivity.
Qed.

(** The second curve of the two rows first reaches 2.9 at the sample of
    index 95; the curve of the wide row never reaches 0.9. *)
Lemma saturated_two_rows :
  first_at_least (threshold 3)
    (overlay_trace Demo.Material Demo.Model Demo.GaAs 3 5 Demo.x_two_rows 1
       (row_at Demo.two_rows 1))
    95.
Proof. apply first_at_least_check; vm_compute; reflexivity. Qed.

Lemma unsaturated_wide_row :
  none_at_least (threshold 1)
    (overlay_trace Demo.Material Demo.Model Demo.GaAs 1 5 Demo.x_wide_row 0
       (row_at Demo.wide_row 0)).
Proof. apply none_at_least_forallb. vm_compute. reflexivity. Qed.

End Scenario.

Local Abbreviation plot_two_rows :=
  (plotter Demo.Material Demo.Model Demo.GaAs Demo.two_rows 3 5%float
     "conductance" "pdf" (Some "out.pdf"%string)).

Local Abbreviation plot_wide_row :=
  (plotter Demo.Material Demo.Model Demo.GaAs Demo.wide_row 1 5%float
     "conductance" "pdf" (Some "out.pdf"%string)).

Local Abbreviation plot_empty :=
  (plotter Demo.Material Demo.Model Demo.GaAs [] 1 5%float
     "conductance" "pdf" (Some "out.pdf"%string)).

Local Abbreviation trace_two_rows i :=
  (overlay_trace Demo.Material Demo.Model Demo.GaAs 3 5%float
     Demo.x_two_rows i (row_at Demo.two_rows i)).

Local Abbreviation trace_wide_row :=
  (overlay_trace Demo.Material Demo.Model Demo.GaAs 1 5%float
     Demo.x_wide_row 0 (row_at Demo.wide_row 0)).

(** C1 (counterexample): on the wide row no sample of the curve reaches
    0.9, and the call ends with an IndexError, which is not an error raised
    by the routine itself. *)
Lemma C1_counterexample :
  valid_call Demo.wide_row 1 5%float Demo.x_wide_row /\
  none_at_least (threshold 1) trace_wide_row /\
  outcome plot_wide_row = Raise IndexError /\
  ~ explicit_error (outcome plot_wide_row).
Proof.
  split; [exact Scenario.valid_wide_row |].
  split; [exact Scenario.unsaturated_wide_row |].
  assert (H : outcome plot_wide_row = Raise IndexError)
    by (vm_compute; reflexivity).
  split; [exact H |]. rewrite H. apply not_explicit_IndexError.
Qed.

(** The wide row: its curve stays at 0, and the call ends in IndexError. *)
Lemma C1_witness :
  Np.where_true (Np.ge_mask trace_wide_row (threshold 1)) = [] /\
  saturation_bound 1 Demo.x_wide_row trace_wide_row = Raise IndexError /\
  outcome plot_wide_row = Raise IndexError.
Proof.
  exact (C1_unsaturated_ends_in_IndexError
           Demo.Material Demo.Model Demo.GaAs Demo.wide_row 1 5%float
           "conductance" "pdf" (Some "out.pdf"%string)
           Scenario.contract Demo.x_wide_row Scenario.valid_wide_row 0 eq_refl
           Scenario.unsaturated_wide_row).
Defined.

(** The wide row with a save name: nothing is written. *)
Lemma C10_witness :
  raised (outcome plot_wide_row) = Some IndexError /\
  saved_files (log plot_wide_row) = [] /\
  log plot_wide_row
  = init_log 1 "conductance"
    ++ loop_log Demo.Material Demo.Model Demo.GaAs Demo.wide_row 1 5%float
         Demo.x_wide_row 1.
Proof.
  exact (C10_no_file_written_on_failed_lookup
           Demo.Material Demo.Model Demo.GaAs Demo.wide_row 1 5%float
           "conductance" "pdf" (Some "out.pdf"%string)
           Scenario.contract Demo.x_wide_row Scenario.valid_wide_row 0 eq_refl
           Scenario.unsaturated_wide_row).
Defined.

(** The two rows: the second curve saturates first at the sample of index
    95. *)
Lemma C3_witness :
  exists xk,
    nth_error Demo.x_two_rows 95 = Some xk /\
    (exists st l,
        evaluate Demo.Material Demo.Model Demo.GaAs Demo.two_rows 3 5%float
        = (Return st, l) /\
        x_min st = Some (xk + 1)%float) /\
    outcome plot_two_rows = Return tt /\
    exists before after,
      log plot_two_rows = before ++ SetXlim Fig (-1) (xk + 1)%float :: after /\
      existsb sets_overlay_xlim after = false.
Proof.
  exact (C3_xlim_from_first_saturated_sample
           Demo.Material Demo.Model Demo.GaAs Demo.two_rows 3 5%float
           "conductance" "pdf" (Some "out.pdf"%string)
           Scenario.contract Demo.x_two_rows Scenario.valid_two_rows 1 95 eq_refl
           Scenario.saturated_two_rows).
Defined.

(** The second curve of the two rows. *)
Lemma C4_witness :
  nth_error (overlay_plots (log plot_two_rows)) 1
  = Some (Demo.x_two_rows,
          total_transmission (Demo.Model Demo.GaAs 2 (1 * 2) 0 1 0)%float
            3
            (map (fun v =>
                    (v - PrimFloat.of_uint63 (Uint63.of_Z (Z.of_nat 1)) * 5)%float)
               Demo.x_two_rows)) /\
  length (overlay_plots (log plot_two_rows)) = length Demo.two_rows.
Proof.
  exact (C4_overlay_trace_is_shifted_sweep
           Demo.Material Demo.Model Demo.GaAs Demo.two_rows 3 5%float
           "conductance" "pdf" (Some "out.pdf"%string)
           Scenario.contract Demo.x_two_rows Scenario.valid_two_rows 1
           2%float 1%float 0%float 1%float 0%float [] eq_refl).
Defined.

(** The second table row of the two rows. *)
Lemma C9_witness :
  nth_error (added_rows (log plot_two_rows)) 1
  = Some (let model := Demo.Model Demo.GaAs 2 (1 * 2) 0 1 0 in
          [hw_x model; (hw_y model / hw_x model);
           magnetic_field model; angle model; E1 model; E2 model;
           eVsd model; hw_c model; zeeman model (1 / 2)])%float /\
  length (added_rows (log plot_two_rows)) = length Demo.two_rows.
Proof.
  exact (C9_summary_row
           Demo.Material Demo.Model Demo.GaAs Demo.two_rows 3 5%float
           "conductance" "pdf" (Some "out.pdf"%string)
           Scenario.contract Demo.x_two_rows Scenario.valid_two_rows 1
           2%float 1%float 0%float 1%float 0%float [] eq_refl).
Defined.

(** The derivative rows of the two rows. *)
Lemma C5_witness :
  differential_sweep = Return x_diff_samples /\
  length x_diff_samples = 320 /\
  (forall k,
      k < 320 ->
      nth_error x_diff_samples k
      = Some (match k with
              | 0 => (-2)%float
              | 1 => (-2 + 0.1)%float
              | _ => (-2 + PrimFloat.of_uint63 (Uint63.of_Z (Z.of_nat k))
                           * ((-2 + 0.1) - (-2)))%float
              end)) /\
  (forall k,
      first_at_least (threshold 3) (trace_two_rows 1) k ->
      succeeds
        (outcome
           (evaluate Demo.Material Demo.Model Demo.GaAs Demo.two_rows 3 5%float))) /\
  (forall st l,
      evaluate Demo.Material Demo.Model Demo.GaAs Demo.two_rows 3 5%float
      = (Return st, l) ->
      length (dydx st) = length Demo.two_rows /\
      (forall i w ratio V_sd B t rest,
          nth_error Demo.two_rows i
          = Some (w :: ratio :: V_sd :: B :: t :: rest) ->
          exists row f,
            f = total_transmission
                  (Demo.Model Demo.GaAs w (ratio * w)%float V_sd B t)
                  3 x_diff_samples /\
            nth_error (dydx st) i = Some row /\
            length f = 320 /\ length row = 320 /\
            nth_error row 0 = Some ((nth 1 f 0 - nth 0 f 0) / 1)%float /\
            nth_error row 319
            = Some ((nth 319 f 0 - nth 318 f 0) / 1)%float /\
            forall j,
              0 < j < 319 ->
              nth_error row j
              = Some ((nth (j + 1) f 0 - nth (j - 1) f 0) / (2 * 1))%float) /\
      Forall (fun row => length row = length x_diff_samples) (dydx st)).
Proof.
  exact (C5_derivative_matrix
           Demo.Material Demo.Model Demo.GaAs Demo.two_rows 3 5%float
           Scenario.contract Demo.x_two_rows Scenario.valid_two_rows
           1 eq_refl).
Defined.


(** C7 (counterexample): on the empty batch the call sets up the overlay
    figure, prints a table without rows and the note, and ends with the
    UnboundLocalError of [x_min], not with an error raised by the routine
    itself. *)
Lemma C7_counterexample :
  valid_call [] 1 5%float Demo.x_empty /\
  plot_empty
  = (Raise (UnboundLocalError "x_min"),
     init_log 1 "conductance" ++ [PrintTable field_names []; Print angle_note]) /\
  ~ explicit_error (outcome plot_empty).
Proof.
  split; [exact Scenario.valid_empty |].
  split; [vm_compute; reflexivity |].
  intros [msg H]. vm_compute in H. discriminate.
Qed.

(** The empty batch. *)
Lemma C7_witness :
  evaluate Demo.Material Demo.Model Demo.GaAs [] 1 5%float
  = (Return {| table_rows := []; dydx := []; x_min := None |}, []) /\
  plot_empty
  = (Raise (UnboundLocalError "x_min"),
     init_log 1 "conductance" ++ [PrintTable field_names []; Print angle_note]).
Proof.
  exact (C7_empty_batch_ends_in_UnboundLocalError
           Demo.Material Demo.Model Demo.GaAs [] 1 5%float
           "conductance" "pdf" (Some "out.pdf"%string)
           Demo.x_empty Scenario.valid_empty eq_refl).
Defined.

(** The sweeps of the two rows. *)
Lemma C2_witness :
  match
    Prim2SF
      (((5 * PrimFloat.of_uint63 (Uint63.of_Z (Z.of_nat (length Demo.two_rows)))
         + (if (3 * 6 <? 0)%Z
            then - PrimFloat.of_uint63 (Uint63.of_Z (- (3 * 6)))
            else PrimFloat.of_uint63 (Uint63.of_Z (3 * 6))))
        - (-2)) / 0.1)%float
  with
  | S754_finite false m e =>
      if (0 <=? e)%Z
      then (Z.of_nat (length Demo.x_two_rows) = Z.pos m * 2 ^ e)%Z
      else ((Z.of_nat (length Demo.x_two_rows) - 1) * 2 ^ (- e) < Z.pos m
            <= Z.of_nat (length Demo.x_two_rows) * 2 ^ (- e))%Z
  | S754_finite true _ _ | S754_zero _ => length Demo.x_two_rows = 0
  | S754_nan | S754_infinity _ => False
  end /\
  (forall k,
      k < length Demo.x_two_rows ->
      nth_error Demo.x_two_rows k
      = Some (match k with
              | 0 => (-2)%float
              | 1 => (-2 + 0.1)%float
              | _ => (-2 + PrimFloat.of_uint63 (Uint63.of_Z (Z.of_nat k))
                           * ((-2 + 0.1) - (-2)))%float
              end)) /\
  Forall (fun curve => fst curve = Demo.x_two_rows)
    (overlay_plots (log plot_two_rows)) /\
  differential_sweep = Return x_diff_samples /\
  length x_diff_samples = 320 /\
  (forall k,
      k < 320 ->
      nth_error x_diff_samples k
      = Some (match k with
              | 0 => (-2)%float
              | 1 => (-2 + 0.1)%float
              | _ => (-2 + PrimFloat.of_uint63 (Uint63.of_Z (Z.of_nat k))
                           * ((-2 + 0.1) - (-2)))%float
              end)) /\
  forallb (fun v => (-2 <=? v)%float && (v <? 30)%float) x_diff_samples = true.
Proof.
  exact (C2_sweep_construction
           Demo.Material Demo.Model Demo.GaAs Demo.two_rows 3 5%float
           "conductance" "pdf" (Some "out.pdf"%string)
           Scenario.contract Demo.x_two_rows Scenario.valid_two_rows).
Defined.

(** Three rows set 4.4 apart with one channel: the stop value is
    [4.4 * 3 + 6], the sweep has 213 samples, every curve is plotted
    against it, and its last sample is above the stop value. *)
Lemma C2_counterexample :
  valid_call Demo.three_rows 1 4.4%float Demo.x_three_rows /\
  map fst
    (overlay_plots
       (log (plotter Demo.Material Demo.Model Demo.GaAs Demo.three_rows 1
               4.4%float "conductance" "pdf" None)))
  = [Demo.x_three_rows; Demo.x_three_rows; Demo.x_three_rows] /\
  length Demo.x_three_rows = 213 /\
  exists last,
    nth_error Demo.x_three_rows 212 = Some last /\
    (4.4 * PrimFloat.of_uint63 (Uint63.of_Z 3)
     + PrimFloat.of_uint63 (Uint63.of_Z 6) <? last)%float = true.
Proof.
  split.
  { unfold valid_call.
    split; [repeat (apply Forall_cons; [cbn; lia |]); apply Forall_nil |].
    split; [vm_compute; reflexivity |].
    split; [vm_compute; reflexivity |].
    split; [vm_compute; exact I |].
    vm_compute. reflexivity. }
  split; [vm_compute; reflexivity |].
  split; [vm_compute; reflexivity |].
  eexists. split; vm_compute; reflexivity.
Qed.

(** A file with the single row 2, 1, 0, 0, 0. *)
Lemma C8_witness :
  read_setup [[2; 1; 0; 0; 0]%float] = Return (Array2 [[2; 1; 0; 0; 0]%float]) /\
  (forall setup,
      read_setup [[2; 1; 0; 0; 0]%float] = Return setup -> ndim setup = 2).
Proof.
  apply (C8_single_row_is_a_batch [2; 1; 0; 0; 0]%float). cbn. lia.
Defined.

(** ** Further runs *)

Lemma yticks_three_channels : yticks 3 = Return (Np.arange_samples 0 0.25 13).
Proof. vm_compute. reflexivity. Qed.

Lemma yticks_one_channel : yticks 1 = Return (Np.arange_samples 0 0.25 5).
Proof. vm_compute. reflexivity. Qed.

Lemma evaluate_two_rows :
  evaluate Demo.Material Demo.Model Demo.GaAs Demo.two_rows 3 5%float
  = (Return (locals_after Demo.Material Demo.Model Demo.GaAs Demo.two_rows 3 2
               (Some (nth 95 Demo.x_two_rows 0 + 1)%float)),
     loop_log Demo.Material Demo.Model Demo.GaAs Demo.two_rows 3 5%float
       Demo.x_two_rows 2).
Proof. vm_compute. reflexivity. Qed.

(** A file with the single row 2, 1, 0, 0, 0. *)
Lemma X1_witness :
  ndim (Array2 [[2; 1; 0; 0; 0]%float]) <> 1 /\
  (ndim (Array2 [[2; 1; 0; 0; 0]%float]) = 0 <->
   exists v, [[2; 1; 0; 0; 0]%float] = [[v]]).
Proof.
  apply (read_setup_never_a_bare_row [[2; 1; 0; 0; 0]%float]). reflexivity.
Defined.

(** A file with the two rows of the demonstration. *)
Lemma X2_witness : read_setup Demo.two_rows = Return (Array2 Demo.two_rows).
Proof.
  apply (read_setup_keeps_a_table [2; 1; 0; 0; 0]%float [2; 1; 0; 1; 0]%float []);
    [reflexivity | cbn; lia].
Defined.

(** A file with the two rows 2 and 1, of one column each. *)
Lemma X3_witness :
  read_setup (map (fun v => [v]) [2; 1]%float) = Return (Array2 [[2; 1]%float]).
Proof.
  apply (read_setup_turns_a_column_into_a_row [2; 1]%float). cbn. lia.
Defined.

(** The contour of the two rows. *)
Lemma X7_witness :
  exists xk,
    nth_error Demo.x_two_rows 95 = Some xk /\
    contour_xlims (log plot_two_rows)
    = [(0%Z,
        ((xk + 1 - float_of_int (Z.of_nat (length Demo.two_rows) - 3) * 5)
         * 10)%float)].
Proof.
  exact (contour_xlim_of_a_returning_call
           Demo.Material Demo.Model Demo.GaAs Demo.two_rows 3 5%float
           "conductance" "pdf" (Some "out.pdf"%string)
           Scenario.contract Demo.x_two_rows Scenario.valid_two_rows 1 95
           eq_refl Scenario.saturated_two_rows).
Defined.

(** The loop over the two rows. *)
Lemma X11_witness :
  length (table_rows
            (locals_after Demo.Material Demo.Model Demo.GaAs Demo.two_rows 3 2
               (Some (nth 95 Demo.x_two_rows 0 + 1)%float)))
  = length Demo.two_rows /\
  length (dydx
            (locals_after Demo.Material Demo.Model Demo.GaAs Demo.two_rows 3 2
               (Some (nth 95 Demo.x_two_rows 0 + 1)%float)))
  = length Demo.two_rows /\
  added_rows
    (loop_log Demo.Material Demo.Model Demo.GaAs Demo.two_rows 3 5%float
       Demo.x_two_rows 2)
  = table_rows
      (locals_after Demo.Material Demo.Model Demo.GaAs Demo.two_rows 3 2
         (Some (nth 95 Demo.x_two_rows 0 + 1)%float)) /\
  length (overlay_plots
            (loop_log Demo.Material Demo.Model Demo.GaAs Demo.two_rows 3 5%float
               Demo.x_two_rows 2))
  = length Demo.two_rows /\
  (x_min (locals_after Demo.Material Demo.Model Demo.GaAs Demo.two_rows 3 2
            (Some (nth 95 Demo.x_two_rows 0 + 1)%float)) = None <->
   Demo.two_rows = []).
Proof.
  exact (loop_returns_with_one_entry_per_configuration
           Demo.Material Demo.Model Demo.GaAs Demo.two_rows 3 5%float
           _ _ evaluate_two_rows).
Defined.

(** The table of the two rows. *)
Lemma X12_witness :
  printed_tables (log plot_two_rows)
  = match evaluate Demo.Material Demo.Model Demo.GaAs Demo.two_rows 3 5%float
    with
    | (Return st, l) => [(field_names, added_rows l)]
    | (Raise _, _) => []
    end.
Proof.
  exact (table_printed_when_the_loop_returns
           Demo.Material Demo.Model Demo.GaAs Demo.two_rows 3 5%float
           "conductance" "pdf" (Some "out.pdf"%string)
           (Np.arange_samples 0 0.25 13) yticks_three_channels).
Defined.

(** The batch [read_setup] makes of a file with a header and no data: one
    row without columns. *)
Lemma X15_witness :
  read_setup [] = Return (Array2 [[]]) /\
  evaluate Demo.Material Demo.Model Demo.GaAs [[]] 1 5%float
  = (Raise IndexError,
     loop_log Demo.Material Demo.Model Demo.GaAs [[]] 1 5%float
       Demo.x_wide_row 0) /\
  plotter Demo.Material Demo.Model Demo.GaAs [[]] 1 5%float
    "conductance" "pdf" (Some "out.pdf"%string)
  = (Raise IndexError,
     axes_log 1 "conductance"
     ++ [SetYticks Fig (Np.arange_samples 0 0.25 5); Grid]
     ++ loop_log Demo.Material Demo.Model Demo.GaAs [[]] 1 5%float
          Demo.x_wide_row 0).
Proof.
  split; [reflexivity |].
  apply (short_row_ends_the_call
           Demo.Material Demo.Model Demo.GaAs [[]] 1 5%float
           "conductance" "pdf" (Some "out.pdf"%string)
           Demo.x_wide_row (Np.arange_samples 0 0.25 5) 0
           Scenario.contract).
  - vm_compute. reflexivity.
  - exact yticks_one_channel.
  - vm_compute. reflexivity.
  - cbn. lia.
  - intros j Hj. lia.
  - cbn. lia.
Defined.
